(** * The chat-room session of src/App.tsx

    A shallow embedding of the session logic of the [App] component: the
    React state cells, the [wsRef] transport reference, the three intents
    ([connectToWebSocket], [sendMessage], [leaveRoom]) and the four handlers
    installed on every WebSocket ([onopen], [onmessage], [onerror],
    [onclose]), the code generator and the cleanup on unmount.  Of the
    rendering, only the test that marks a message as the user's own is
    modelled. *)

From Stdlib Require Import String Ascii NArith ZArith Lia.
From stdpp Require Import base option list numbers.

Local Open Scope nat_scope.
Set Warnings "-register-all".

(** ** JavaScript strings

    A JavaScript string is a sequence of UTF-16 code units; [length] counts
    code units and [trim] works on code units (every white-space code point
    lies in the basic plane). *)

Definition jsstring := list N.

(** A source literal, read as its code units. *)
Definition lit (s : string) : jsstring :=
  List.map N_of_ascii (list_ascii_of_string s).

(** WhiteSpace and LineTerminator of ECMAScript: what [String.prototype.trim]
    strips. *)
Definition is_ws (c : N) : bool :=
  ((9 <=? c) && (c <=? 13) || (c =? 32) || (c =? 160) || (c =? 5760)
   || (8192 <=? c) && (c <=? 8202) || (c =? 8232) || (c =? 8233)
   || (c =? 8239) || (c =? 8287) || (c =? 12288) || (c =? 65279))%N.

Fixpoint trimStart (s : jsstring) : jsstring :=
  match s with
  | c :: r => if is_ws c then trimStart r else s
  | [] => []
  end.

Definition trimEnd (s : jsstring) : jsstring := rev (trimStart (rev s)).

Definition trim (s : jsstring) : jsstring := trimEnd (trimStart s).

(** Truthiness of a string: the empty string is the only falsy one. *)
Definition truthy_str (s : jsstring) : bool :=
  match s with [] => false | _ => true end.

(** ** JavaScript values

    What [JSON.parse] can return, what [JSON.stringify] is given, and
    [undefined] for an absent property.  Numbers are kept as integers: the
    session never looks inside one. *)

Inductive jsval :=
| JUndefined
| JNull
| JBool (b : bool)
| JNum (n : Z)
| JStr (s : jsstring)
| JArr (items : list jsval)
| JObj (props : list (jsstring * jsval)).

Fixpoint own_prop (props : list (jsstring * jsval)) (k : jsstring) : jsval :=
  match props with
  | [] => JUndefined
  | (k', v) :: r => if bool_decide (k' = k) then v else own_prop r k
  end.

(** [v.k] for the property names the session reads ([type], [payload],
    [sender], [text], [message]; none of them is on a prototype): [None] is
    the TypeError raised on [undefined] and [null]. *)
Definition get_prop (v : jsval) (k : jsstring) : option jsval :=
  match v with
  | JUndefined | JNull => None
  | JObj props => Some (own_prop props k)
  | _ => Some JUndefined
  end.

(** [v === 'literal'], the comparison a [switch] makes. *)
Definition strict_eq_str (v : jsval) (s : jsstring) : bool :=
  match v with
  | JStr t => bool_decide (t = s)
  | _ => false
  end.

(** [{type: ty, payload: p}] *)
Definition frame (ty : string) (p : jsval) : jsval :=
  JObj [(lit "type", JStr (lit ty)); (lit "payload", p)].

(** ** The session state *)

Inductive ConnectionStatus := disconnected | connecting | connected.

Record Message := {
  sender : jsval;
  text : jsval;
  timestamp : Z
}.

Inductive ReadyState := CONNECTING | OPEN | CLOSING | CLOSED.

(** A WebSocket created by [connectToWebSocket]: its ready state and the
    [roomCode] and [name] of the render whose closure its handlers are. *)
Record WebSocket := {
  readyState : ReadyState;
  cl_roomCode : jsstring;
  cl_name : jsstring
}.

Record State := {
  name : jsstring;
  messages : list Message;
  roomCode : jsstring;
  connectionStatus : ConnectionStatus;
  error : jsval;
  currentMessage : jsstring;
  participants : jsval;
  wsRef : option nat;
  (** every socket constructed so far; [wsRef] and the events name one by
      its position *)
  sockets : list WebSocket;
  (** the frames handed to an open socket, oldest first, each with the
      socket that carried it and the object given to [JSON.stringify] *)
  sent : list (nat * jsval)
}.

Definition initial : State := {|
  name := [];
  messages := [];
  roomCode := [];
  connectionStatus := disconnected;
  error := JNull;
  currentMessage := [];
  participants := JArr [];
  wsRef := None;
  sockets := [];
  sent := []
|}.

Definition setName (v : jsstring) (s : State) : State :=
  {| name := v; messages := messages s; roomCode := roomCode s;
     connectionStatus := connectionStatus s; error := error s;
     currentMessage := currentMessage s; participants := participants s;
     wsRef := wsRef s; sockets := sockets s; sent := sent s |}.

Definition setMessages (v : list Message) (s : State) : State :=
  {| name := name s; messages := v; roomCode := roomCode s;
     connectionStatus := connectionStatus s; error := error s;
     currentMessage := currentMessage s; participants := participants s;
     wsRef := wsRef s; sockets := sockets s; sent := sent s |}.

Definition setRoomCode (v : jsstring) (s : State) : State :=
  {| name := name s; messages := messages s; roomCode := v;
     connectionStatus := connectionStatus s; error := error s;
     currentMessage := currentMessage s; participants := participants s;
     wsRef := wsRef s; sockets := sockets s; sent := sent s |}.

Definition setConnectionStatus (v : ConnectionStatus) (s : State) : State :=
  {| name := name s; messages := messages s; roomCode := roomCode s;
     connectionStatus := v; error := error s;
     currentMessage := currentMessage s; participants := participants s;
     wsRef := wsRef s; sockets := sockets s; sent := sent s |}.

Definition setError (v : jsval) (s : State) : State :=
  {| name := name s; messages := messages s; roomCode := roomCode s;
     connectionStatus := connectionStatus s; error := v;
     currentMessage := currentMessage s; participants := participants s;
     wsRef := wsRef s; sockets := sockets s; sent := sent s |}.

Definition setCurrentMessage (v : jsstring) (s : State) : State :=
  {| name := name s; messages := messages s; roomCode := roomCode s;
     connectionStatus := connectionStatus s; error := error s;
     currentMessage := v; participants := participants s;
     wsRef := wsRef s; sockets := sockets s; sent := sent s |}.

Definition setParticipants (v : jsval) (s : State) : State :=
  {| name := name s; messages := messages s; roomCode := roomCode s;
     connectionStatus := connectionStatus s; error := error s;
     currentMessage := currentMessage s; participants := v;
     wsRef := wsRef s; sockets := sockets s; sent := sent s |}.

Definition set_wsRef (v : option nat) (s : State) : State :=
  {| name := name s; messages := messages s; roomCode := roomCode s;
     connectionStatus := connectionStatus s; error := error s;
     currentMessage := currentMessage s; participants := participants s;
     wsRef := v; sockets := sockets s; sent := sent s |}.

Definition set_sockets (v : list WebSocket) (s : State) : State :=
  {| name := name s; messages := messages s; roomCode := roomCode s;
     connectionStatus := connectionStatus s; error := error s;
     currentMessage := currentMessage s; participants := participants s;
     wsRef := wsRef s; sockets := v; sent := sent s |}.

Definition set_sent (v : list (nat * jsval)) (s : State) : State :=
  {| name := name s; messages := messages s; roomCode := roomCode s;
     connectionStatus := connectionStatus s; error := error s;
     currentMessage := currentMessage s; participants := participants s;
     wsRef := wsRef s; sockets := sockets s; sent := v |}.

(** ** The transport, as the browser provides it *)

Definition set_readyState (r : ReadyState) (w : WebSocket) : WebSocket :=
  {| readyState := r; cl_roomCode := cl_roomCode w; cl_name := cl_name w |}.

(** [new WebSocket("wss://...")] followed by the assignment of the four
    handlers: a fresh socket in state CONNECTING, recorded with the
    [roomCode] and [name] its handlers close over.  [None] stands for the
    constructor throwing, which it does not do for the constant, well-formed
    [wss:] address of the source. *)
Definition new_WebSocket (rc nm : jsstring) (s : State) : option (nat * State) :=
  Some (length (sockets s),
        set_sockets (sockets s ++
          [{| readyState := CONNECTING; cl_roomCode := rc; cl_name := nm |}]) s).

(** [ws.send(JSON.stringify(data))]: throws InvalidStateError ([None]) while
    the socket is CONNECTING, hands the frame over when it is OPEN, and
    silently drops it once it is CLOSING or CLOSED. *)
Definition ws_send (ws : nat) (data : jsval) (s : State) : option State :=
  match sockets s !! ws with
  | Some w =>
      match readyState w with
      | CONNECTING => None
      | OPEN => Some (set_sent (sent s ++ [(ws, data)]) s)
      | CLOSING | CLOSED => Some s
      end
  | None => Some s
  end.

(** [ws.close()]: starts the closing handshake unless the socket is already
    CLOSING or CLOSED. *)
Definition ws_close (ws : nat) (s : State) : State :=
  match sockets s !! ws with
  | Some w =>
      match readyState w with
      | CONNECTING | OPEN =>
          set_sockets (<[ws := set_readyState CLOSING w]> (sockets s)) s
      | CLOSING | CLOSED => s
      end
  | None => s
  end.

(** ** The component's functions *)

Definition characters : jsstring := lit "ABCDEFGHIJKLMNOPQRSTUVWXYZ0123456789".

(** [generateRandomCode]; [random i] is the value of
    [Math.floor(Math.random() * characters.length)] in round [i] of the
    loop.  [characters[randomIndex]] out of range would be [undefined], which
    [+=] appends as the text "undefined". *)
Definition generateRandomCode (random : nat -> nat) (s : State) : State :=
  setRoomCode
    (fold_left (fun code i =>
                  code ++ match characters !! random i with
                          | Some c => [c]
                          | None => lit "undefined"
                          end)
               (seq 0 6) [])
    s.

Definition joinMessage (w : WebSocket) : jsval :=
  frame "join" (JObj [(lit "roomId", JStr (cl_roomCode w));
                      (lit "userName", JStr (trim (cl_name w)))]).

Definition ws_onopen (ws : nat) (s : State) : State :=
  match sockets s !! ws with
  | Some w =>
      match ws_send ws (joinMessage w) s with
      | Some s1 => setConnectionStatus connected s1
      | None => s
      end
  | None => s
  end.

(** The element that the updater given to [setMessages] appends; [now] is
    the value of [Date.now()].  [None] is the TypeError of reading [sender]
    or [text] off a payload that is [undefined] or [null]. *)
Definition new_message (parsedMessage : jsval) (now : Z) : option Message :=
  match get_prop parsedMessage (lit "payload") with
  | Some payload =>
      match get_prop payload (lit "sender"), get_prop payload (lit "text") with
      | Some sd, Some tx =>
          Some {| sender := sd; text := tx; timestamp := now |}
      | _, _ => None
      end
  | None => None
  end.

(** The message handler.  [data] is what [JSON.parse(event.data)] makes of
    the text frame: [None] when it throws SyntaxError.  Everything inside the
    handler's [try] that throws ends in its [catch], which only logs.  The
    updater given to [setMessages] is not run inside the [try]: React runs it
    when it applies the update, so an exception of [new_message] escapes the
    handler and takes the component down; that is the result [None]. *)
Definition ws_onmessage (data : option jsval) (now : Z) (s : State)
  : option State :=
  match data with
  | None => Some s
  | Some parsedMessage =>
      match get_prop parsedMessage (lit "type") with
      | None => Some s
      | Some ty =>
          if strict_eq_str ty (lit "room_joined") then Some s
          else if strict_eq_str ty (lit "user_list") then
            match get_prop parsedMessage (lit "payload") with
            | Some payload => Some (setParticipants payload s)
            | None => Some s
            end
          else if strict_eq_str ty (lit "chat_message") then
            match new_message parsedMessage now with
            | Some m => Some (setMessages (messages s ++ [m]) s)
            | None => None
            end
          else if strict_eq_str ty (lit "error") then
            match get_prop parsedMessage (lit "payload") with
            | Some payload =>
                match get_prop payload (lit "message") with
                | Some m => Some (setError m s)
                | None => Some s
                end
            | None => Some s
            end
          else Some s
      end
  end.

Definition ws_onerror (s : State) : State :=
  setError (JStr (lit "Failed to connect to the room"))
    (setConnectionStatus disconnected s).

Definition ws_onclose (s : State) : State :=
  setConnectionStatus disconnected s.

Definition connectToWebSocket (s : State) : State :=
  if negb (truthy_str (trim (name s))) then
    setError (JStr (lit "Please enter your name")) s
  else if negb (truthy_str (trim (roomCode s)))
          || negb (length (roomCode s) =? 6) then
    setError (JStr (lit "Please enter a valid 6-character room code")) s
  else
    let s1 := setConnectionStatus connecting (setError JNull s) in
    match new_WebSocket (roomCode s) (name s) s1 with
    | Some (ws, s2) => set_wsRef (Some ws) s2
    | None =>
        setConnectionStatus disconnected
          (setError (JStr (lit "Could not establish WebSocket connection")) s1)
    end.

Definition chatMessage (s : State) : jsval :=
  frame "chat_message"
    (JObj [(lit "roomId", JStr (roomCode s));
           (lit "sender", JStr (name s));
           (lit "text", JStr (trim (currentMessage s)))]).

(** An InvalidStateError from [send] leaves the click handler before
    anything is set. *)
Definition sendMessage (s : State) : State :=
  match truthy_str (trim (currentMessage s)), wsRef s, connectionStatus s with
  | true, Some ws, connected =>
      match ws_send ws (chatMessage s) s with
      | Some s1 => setCurrentMessage [] s1
      | None => s
      end
  | _, _, _ => s
  end.

Definition leaveMessage (s : State) : jsval :=
  frame "leave" (JObj [(lit "roomId", JStr (roomCode s));
                       (lit "userName", JStr (name s))]).

Definition leaveRoom (s : State) : State :=
  match wsRef s with
  | Some ws =>
      match ws_send ws (leaveMessage s) s with
      | Some s1 =>
          setParticipants (JArr [])
            (setMessages []
               (setConnectionStatus disconnected
                  (set_wsRef None (ws_close ws s1))))
      | None => s
      end
  | None => s
  end.

(** ** Events

    One event is handled at a time.  The browser fires [open] only on a
    CONNECTING socket and [message] only on an OPEN one; a failed connection
    is closed and then fires [error] followed by [close]. *)

Inductive Event :=
| NameInput (v : jsstring)
| RoomCodeInput (v : jsstring)
| MessageInput (v : jsstring)
| CreateRoom (random : nat -> nat)
| Join
| Send
| Leave
| WsOpen (ws : nat)
| WsMessage (ws : nat) (data : option jsval) (now : Z)
| WsError (ws : nat)
| WsClose (ws : nat).

Definition ready (ws : nat) (s : State) : option ReadyState :=
  readyState <$> sockets s !! ws.

Definition become (r : ReadyState) (ws : nat) (s : State) : State :=
  set_sockets (alter (set_readyState r) ws (sockets s)) s.

(** [RoomCodeInput v] carries the value already put in upper case by the
    input's [onChange]. *)
Definition step (s : State) (e : Event) : option State :=
  match e with
  | NameInput v => Some (setName v s)
  | RoomCodeInput v => Some (setRoomCode v s)
  | MessageInput v => Some (setCurrentMessage v s)
  | CreateRoom random => Some (generateRandomCode random s)
  | Join => Some (connectToWebSocket s)
  | Send => Some (sendMessage s)
  | Leave => Some (leaveRoom s)
  | WsOpen ws =>
      match ready ws s with
      | Some CONNECTING => Some (ws_onopen ws (become OPEN ws s))
      | _ => Some s
      end
  | WsMessage ws data now =>
      match ready ws s with
      | Some OPEN => ws_onmessage data now s
      | _ => Some s
      end
  | WsError ws =>
      match ready ws s with
      | Some CLOSED | None => Some s
      | Some _ => Some (ws_onclose (ws_onerror (become CLOSED ws s)))
      end
  | WsClose ws =>
      match ready ws s with
      | Some CLOSED | None => Some s
      | Some _ => Some (ws_onclose (become CLOSED ws s))
      end
  end.

Fixpoint run (s : State) (es : list Event) : option State :=
  match es with
  | [] => Some s
  | e :: r =>
      match step s e with
      | Some s' => run s' r
      | None => None
      end
  end.


(** ** Vocabulary of the statements *)

(** A code as [generateRandomCode] makes them: six characters of
    [characters]. *)
Definition valid_code (c : jsstring) : bool :=
  (length c =? 6) && forallb (fun x => existsb (N.eqb x) characters) c.

(** A string that starts or ends with white space. *)
Definition has_outer_ws (n : jsstring) : bool :=
  match n with
  | [] => false
  | c :: r => is_ws c || is_ws (List.last r c)
  end.

(** The inbound frame types the [switch] of the message handler has a case
    for. *)
Definition handled_type (ty : jsval) : bool :=
  strict_eq_str ty (lit "room_joined") || strict_eq_str ty (lit "user_list")
  || strict_eq_str ty (lit "chat_message") || strict_eq_str ty (lit "error").

(** The arrival of a frame of type room_joined. *)
Definition is_room_joined (e : Event) : bool :=
  match e with
  | WsMessage _ (Some v) _ =>
      match get_prop v (lit "type") with
      | Some ty => strict_eq_str ty (lit "room_joined")
      | None => false
      end
  | _ => false
  end.

(** ** Example sessions *)

Definition al : jsstring := lit "al".
Definition bob : jsstring := lit "bob".
Definition hi : jsstring := lit "hi".
Definition ABCDEF : jsstring := lit "ABCDEF".

Definition chat_frame (from body : jsstring) : option jsval :=
  Some (frame "chat_message"
          (JObj [(lit "sender", JStr from); (lit "text", JStr body)])).

(** The form filled in with a name and a room code, nothing joined yet. *)
Definition filled (n c : jsstring) : State := setRoomCode c (setName n initial).

(** Name, code, join, and the transport opens. *)
Definition plain_join : list Event :=
  [NameInput al; RoomCodeInput ABCDEF; Join; WsOpen 0].

(** The state [plain_join] ends in: connected, on its only transport. *)
Definition in_room : State :=
  ws_onopen 0 (become OPEN 0 (connectToWebSocket (filled al ABCDEF))).

(** A session that joined, was told who is in the room, received one chat
    message, and then lost its transport through [last]. *)
Definition visit_then (last : Event) : list Event :=
  [NameInput al; RoomCodeInput ABCDEF; Join; WsOpen 0;
   WsMessage 0 (Some (frame "user_list" (JArr [JStr al; JStr bob]))) 1%Z;
   WsMessage 0 (chat_frame bob hi) 2%Z;
   last].

(** Two joins in a row, both transports open, and the user leaves: the
    second transport is closed, the first stays open. *)
Definition leave_one_of_two : list Event :=
  [NameInput al; RoomCodeInput ABCDEF; Join; Join; WsOpen 0; WsOpen 1; Leave].

(** Two joins in a row, the second transport opens first, the user leaves,
    then the first transport opens. *)
Definition late_open : list Event :=
  [NameInput al; RoomCodeInput ABCDEF; Join; Join; WsOpen 1; Leave; WsOpen 0].

(** ** The rest of the component *)

(** The cleanup of the effect that runs when the component unmounts:
    [if (wsRef.current) wsRef.current.close()]. *)
Definition unmount (s : State) : State :=
  match wsRef s with
  | Some ws => ws_close ws s
  | None => s
  end.

(** [msg.sender === name]: the test by which the chat view sets a message
    off as the user's own. *)
Definition own_message (m : Message) (s : State) : bool :=
  strict_eq_str (sender m) (name s).

(** ** Vocabulary of the further properties *)

(** The order in which a WebSocket goes through its ready states. *)
Definition rank (r : ReadyState) : nat :=
  match r with CONNECTING => 0 | OPEN => 1 | CLOSING => 2 | CLOSED => 3 end.

(** The events that come from the user, as opposed to the transport. *)
Definition user_event (e : Event) : bool :=
  match e with
  | WsOpen _ | WsMessage _ _ _ | WsError _ | WsClose _ => false
  | _ => true
  end.

(** The events that only fill in a field of the form. *)
Definition form_input (e : Event) : bool :=
  match e with
  | NameInput _ | RoomCodeInput _ | MessageInput _ | CreateRoom _ => true
  | _ => false
  end.

(** The closure of a socket holds a name and a code that pass the validation
    of [connectToWebSocket]. *)
Definition validated (w : WebSocket) : Prop :=
  trim (cl_name w) <> [] /\ trim (cl_roomCode w) <> [] /\
  length (cl_roomCode w) = 6.

(** The frames handed to socket [ws], oldest first. *)
Definition frames_on (ws : nat) (l : list (nat * jsval)) : list jsval :=
  List.map snd (List.filter (fun p => fst p =? ws) l).

(** The three frames the client puts on the wire, with what the code
    guarantees of their fields. *)
Inductive wire_ok : jsval -> Prop :=
| wire_join rc nm :
    length rc = 6 -> trim rc <> [] -> nm <> [] -> trim nm = nm ->
    wire_ok (frame "join" (JObj [(lit "roomId", JStr rc);
                                 (lit "userName", JStr nm)]))
| wire_chat rc nm tx :
    tx <> [] -> trim tx = tx ->
    wire_ok (frame "chat_message" (JObj [(lit "roomId", JStr rc);
                                         (lit "sender", JStr nm);
                                         (lit "text", JStr tx)]))
| wire_leave rc nm :
    wire_ok (frame "leave" (JObj [(lit "roomId", JStr rc);
                                  (lit "userName", JStr nm)])).

(** A frame of type join. *)
Definition is_join (f : jsval) : bool :=
  match get_prop f (lit "type") with
  | Some ty => strict_eq_str ty (lit "join")
  | None => false
  end.

(** The frames handed to a socket fit its life: none as long as it has not
    been open; from then on its own join frame first, and no join frame
    after it. *)
Definition join_first (w : WebSocket) (fs : list jsval) : Prop :=
  (fs = [] /\ readyState w <> OPEN) \/
  (exists rest, fs = joinMessage w :: rest /\ readyState w <> CONNECTING /\
     Forall (fun f => is_join f = false) rest).

(** What one event can do to the sockets and to the frames sent. *)
Inductive transport_step (s s' : State) : Prop :=
| ts_same :
    sockets s' = sockets s -> sent s' = sent s -> transport_step s s'
| ts_new w :
    readyState w = CONNECTING -> validated w ->
    sockets s' = sockets s ++ [w] -> sent s' = sent s -> transport_step s s'
| ts_closed ws w :
    sockets s !! ws = Some w -> readyState w <> CLOSED ->
    sockets s' = <[ws := set_readyState CLOSED w]> (sockets s) ->
    sent s' = sent s -> transport_step s s'
| ts_open ws w :
    sockets s !! ws = Some w -> readyState w = CONNECTING ->
    sockets s' = <[ws := set_readyState OPEN w]> (sockets s) ->
    sent s' = sent s ++ [(ws, joinMessage w)] -> transport_step s s'
| ts_chat ws w :
    sockets s !! ws = Some w -> readyState w = OPEN ->
    trim (currentMessage s) <> [] ->
    sockets s' = sockets s ->
    sent s' = sent s ++ [(ws, chatMessage s)] -> transport_step s s'
| ts_leave ws w :
    sockets s !! ws = Some w -> readyState w = OPEN ->
    sockets s' = <[ws := set_readyState CLOSING w]> (sockets s) ->
    sent s' = sent s ++ [(ws, leaveMessage s)] -> transport_step s s'.

(** Leave, join again, and only then the close of the first transport
    arrives. *)
Definition rejoin_then_late_close : list Event :=
  [NameInput al; RoomCodeInput ABCDEF; Join; WsOpen 0; Leave;
   Join; WsOpen 1; WsClose 0].

(** Two joins in a row and the first transport opens: connected, with the
    transport of [wsRef] still connecting. *)
Definition first_of_two_open : State :=
  ws_onopen 0 (become OPEN 0
    (connectToWebSocket (connectToWebSocket (filled al ABCDEF)))).

(** Two joins in a row, the second transport fails, the first one opens:
    connected, with the transport of [wsRef] closed. *)
Definition second_of_two_lost : State :=
  ws_onopen 0 (become OPEN 0
    (ws_onclose (become CLOSED 1
       (connectToWebSocket (connectToWebSocket (filled al ABCDEF)))))).

(** ** Trimming *)

Example trim_inner : trim (lit "  a b  ") = lit "a b".
Proof. reflexivity. Qed.

Example trim_blank : trim (lit "   ") = [] /\ trim [160; 9; 10; 8232]%N = [].
Proof. split; reflexivity. Qed.

Section Trim.

Implicit Types s r : jsstring.

Lemma trimStart_nil s : trimStart s = [] <-> forallb is_ws s = true.
Proof.
  induction s as [|c r IH]; simpl; [tauto|].
  destruct (is_ws c); simpl; [exact IH|].
  split; discriminate.
Qed.

Lemma trimStart_head s c r : trimStart s = c :: r -> is_ws c = false.
Proof.
  induction s as [|d t IH]; simpl; [discriminate|].
  destruct (is_ws d) eqn:Hd; [exact IH|].
  intros [= <- _]. exact Hd.
Qed.

Lemma trimStart_length s : length (trimStart s) <= length s.
Proof.
  induction s as [|c r IH]; simpl; [lia|].
  destruct (is_ws c); simpl; lia.
Qed.

Lemma forallb_ws_rev s : forallb is_ws (rev s) = forallb is_ws s.
Proof.
  induction s as [|c r IH]; simpl; [reflexivity|].
  rewrite forallb_app, IH. simpl. rewrite andb_true_r. apply andb_comm.
Qed.

Lemma trimEnd_nil s : trimEnd s = [] <-> forallb is_ws s = true.
Proof.
  unfold trimEnd. rewrite <- forallb_ws_rev, <- trimStart_nil.
  split; intros H.
  - apply (f_equal (@rev N)) in H. now rewrite rev_involutive in H.
  - now rewrite H.
Qed.

Lemma trimEnd_length s : length (trimEnd s) <= length s.
Proof.
  unfold trimEnd. rewrite length_rev.
  etransitivity; [apply trimStart_length|]. now rewrite length_rev.
Qed.

(** [trim] gives the empty string exactly on blank input. *)
Lemma trim_nil s : trim s = [] <-> forallb is_ws s = true.
Proof.
  unfold trim. rewrite trimEnd_nil. split.
  - intros H. apply trimStart_nil.
    destruct (trimStart s) as [|c r] eqn:E; [reflexivity|].
    apply trimStart_head in E. simpl in H. now rewrite E in H.
  - intros H. apply trimStart_nil in H. now rewrite H.
Qed.

Lemma trimStart_snoc s c :
  trimStart (s ++ [c]) = [] \/
  exists t, trimStart (s ++ [c]) = t ++ [c] /\ length t <= length s.
Proof.
  induction s as [|d r IH]; simpl.
  - destruct (is_ws c); [now left|]. right. exists []. split; [easy|simpl; lia].
  - destruct (is_ws d).
    + destruct IH as [IH|(t & Ht & Hl)]; [now left|].
      right. exists t. split; [easy|simpl; lia].
    + right. exists (d :: r). split; [easy|simpl; lia].
Qed.

Lemma trimEnd_snoc_ws s c : is_ws c = true -> trimEnd (s ++ [c]) = trimEnd s.
Proof.
  intros H. unfold trimEnd. rewrite rev_app_distr. simpl. now rewrite H.
Qed.

(** Outer white space makes [trim] strictly shorter. *)
Lemma trim_shorter s : has_outer_ws s = true -> length (trim s) < length s.
Proof.
  destruct s as [|c r]; [discriminate|].
  intros H. simpl in H. apply orb_true_iff in H as [H|H].
  - unfold trim. simpl. rewrite H.
    pose proof (trimEnd_length (trimStart r)).
    pose proof (trimStart_length r). lia.
  - assert (exists t d, c :: r = t ++ [d] /\ is_ws d = true) as (t & d & E & Hd).
    { destruct (exists_last (l:=c :: r)) as (t & d & E); [discriminate|].
      exists t, d. split; [exact E|].
      destruct r as [|e r'].
      - simpl in H. destruct t as [|? [|? ?]]; simpl in E;
          [now injection E as -> | discriminate | discriminate].
      - rewrite <- H. f_equal.
        change (List.last (e :: r') c) with (List.last (c :: e :: r') c).
        rewrite E. now rewrite last_last. }
    rewrite E. unfold trim.
    destruct (trimStart_snoc t d) as [E0|(u & Eu & Hl)].
    + rewrite E0. rewrite length_app. simpl. lia.
    + rewrite Eu, trimEnd_snoc_ws by exact Hd.
      pose proof (trimEnd_length u). rewrite length_app. simpl. lia.
Qed.

Lemma trim_changes s : has_outer_ws s = true -> trim s <> s.
Proof.
  intros H E. apply trim_shorter in H. rewrite E in H. lia.
Qed.

(** None of the thirty-six code characters is white space. *)
Lemma characters_not_ws c :
  existsb (N.eqb c) characters = true -> is_ws c = false.
Proof.
  intros H. apply existsb_exists in H as (x & Hin & Hx).
  apply N.eqb_eq in Hx. subst x.
  vm_compute in Hin. repeat (destruct Hin as [<-|Hin]; [reflexivity|]).
  destruct Hin.
Qed.

Lemma valid_code_passes c :
  valid_code c = true -> trim c <> [] /\ length c = 6.
Proof.
  unfold valid_code. intros H. apply andb_true_iff in H as [Hl Hc].
  apply Nat.eqb_eq in Hl. split; [|exact Hl].
  rewrite trim_nil. destruct c as [|x r]; [discriminate|].
  simpl in *. apply andb_true_iff in Hc as [Hx _].
  now rewrite (characters_not_ws _ Hx).
Qed.

End Trim.

(** ** Joining *)

Example plain_join_in_room : run initial plain_join = Some in_room.
Proof. vm_compute. reflexivity. Qed.


Lemma validation_passes s :
  trim (name s) <> [] -> trim (roomCode s) <> [] -> length (roomCode s) = 6 ->
  connectToWebSocket s =
    set_wsRef (Some (length (sockets s)))
      (set_sockets (sockets s ++
         [{| readyState := CONNECTING; cl_roomCode := roomCode s;
             cl_name := name s |}])
         (setConnectionStatus connecting (setError JNull s))).
Proof.
  intros Hn Hc Hl. unfold connectToWebSocket.
  destruct (trim (name s)) eqn:En; [contradiction|].
  destruct (trim (roomCode s)) eqn:Ec; [contradiction|].
  rewrite Hl. reflexivity.
Qed.

(** What the [open] event does on a socket that is still connecting: the
    socket becomes OPEN, its join frame goes out, the status is set. *)
Lemma open_fires s ws w :
  sockets s !! ws = Some w -> readyState w = CONNECTING ->
  step s (WsOpen ws) =
    Some (setConnectionStatus connected
            (set_sent (sent s ++ [(ws, joinMessage w)]) (become OPEN ws s))).
Proof.
  intros Hw Hr. unfold step, ready. rewrite Hw. simpl. rewrite Hr.
  unfold ws_onopen, ws_send, become. simpl.
  rewrite list_lookup_alter_eq, Hw. reflexivity.
Qed.

(** C3, counterexample: with the name "al" and the six-character code
    " ABCDE", whose trimmed form has five characters, the join is not
    refused: no error is set, the status becomes connecting and a transport
    is opened. *)
Lemma padded_code_is_accepted :
  let s := filled al (lit " ABCDE") in
  length (trim (roomCode s)) = 5 /\
  connectionStatus s = disconnected /\
  connectionStatus (connectToWebSocket s) = connecting /\
  error (connectToWebSocket s) = JNull /\
  sockets (connectToWebSocket s) =
    [{| readyState := CONNECTING; cl_roomCode := lit " ABCDE";
        cl_name := al |}].
Proof. vm_compute. repeat split. Qed.

(** C3, amended: when the trimmed name is empty, or the trimmed code is
    empty, or the code as typed does not have exactly 6 characters,
    [connectToWebSocket] only sets the error: the status stays what it was
    (disconnected stays disconnected), no socket is constructed, [wsRef] is
    untouched and nothing is sent. *)
Theorem join_rejects_invalid s :
  trim (name s) = [] \/ trim (roomCode s) = [] \/ length (roomCode s) <> 6 ->
  exists msg,
    msg <> [] /\
    connectToWebSocket s = setError (JStr msg) s /\
    error (connectToWebSocket s) = JStr msg /\
    connectionStatus (connectToWebSocket s) = connectionStatus s /\
    sockets (connectToWebSocket s) = sockets s /\
    wsRef (connectToWebSocket s) = wsRef s /\
    sent (connectToWebSocket s) = sent s.
Proof.
  intros H. unfold connectToWebSocket.
  destruct (trim (name s)) eqn:En; simpl.
  { exists (lit "Please enter your name"). repeat split. discriminate. }
  assert (negb (truthy_str (trim (roomCode s)))
          || negb (length (roomCode s) =? 6) = true) as ->.
  { destruct H as [H|[H|H]]; [discriminate| |].
    - now rewrite H.
    - apply Nat.eqb_neq in H. rewrite H. apply orb_true_r. }
  exists (lit "Please enter a valid 6-character room code").
  repeat split. discriminate.
Qed.

Lemma join_rejects_invalid_witness :
  let s := filled (lit "   ") ABCDEF in
  trim (name s) = [] /\
  exists msg, msg <> [] /\ connectToWebSocket s = setError (JStr msg) s.
Proof.
  split; [reflexivity|].
  destruct (join_rejects_invalid (filled (lit "   ") ABCDEF)
              (or_introl eq_refl)) as (msg & Hm & He & _).
  exists msg. split; assumption.
Defined.

(** C4: with a code of six characters out of A-Z and 0-9 and a name that is
    not blank, [connectToWebSocket] (from disconnected as from any status)
    sets the status to connecting, clears the error and constructs one
    socket, kept in [wsRef]; nothing is sent yet.  When that socket opens,
    exactly one frame goes out on it: the join frame with the code as it is
    and the trimmed name.  The socket opens once. *)
Theorem join_valid s :
  valid_code (roomCode s) = true -> trim (name s) <> [] ->
  let ws := length (sockets s) in
  let s1 := connectToWebSocket s in
  connectionStatus s1 = connecting /\
  error s1 = JNull /\
  wsRef s1 = Some ws /\
  sockets s1 = sockets s ++
    [{| readyState := CONNECTING; cl_roomCode := roomCode s;
        cl_name := name s |}] /\
  sent s1 = sent s /\
  exists s2,
    step s1 (WsOpen ws) = Some s2 /\
    sent s2 = sent s ++
      [(ws, frame "join" (JObj [(lit "roomId", JStr (roomCode s));
                                (lit "userName", JStr (trim (name s)))]))] /\
    step s2 (WsOpen ws) = Some s2.
Proof.
  intros Hc Hn ws s1.
  apply valid_code_passes in Hc as [Hc Hl].
  subst s1. rewrite (validation_passes s Hn Hc Hl). fold ws.
  repeat (split; [reflexivity|]).
  eexists. split.
  - apply open_fires with
      (w := {| readyState := CONNECTING; cl_roomCode := roomCode s;
               cl_name := name s |}); [|reflexivity].
    simpl. now apply list_lookup_middle.
  - split; [reflexivity|].
    unfold step, ready, become. simpl.
    rewrite list_lookup_alter_eq, list_lookup_middle by reflexivity.
    reflexivity.
Qed.

Lemma join_valid_witness :
  let s := filled al ABCDEF in
  valid_code (roomCode s) = true /\ trim (name s) <> [] /\
  connectionStatus s = disconnected /\
  connectionStatus (connectToWebSocket s) = connecting.
Proof.
  split; [reflexivity|]. split; [discriminate|]. split; [reflexivity|].
  exact (proj1 (join_valid (filled al ABCDEF) eq_refl
                  ltac:(discriminate))).
Defined.

(** ** Sending *)

Lemma send_on_open s ws w data :
  sockets s !! ws = Some w -> readyState w = OPEN ->
  ws_send ws data s = Some (set_sent (sent s ++ [(ws, data)]) s).
Proof. intros Hw Hr. unfold ws_send. now rewrite Hw, Hr. Qed.

Lemma ws_send_sent s ws data s' :
  ws_send ws data s = Some s' ->
  s' = s \/ s' = set_sent (sent s ++ [(ws, data)]) s.
Proof.
  unfold ws_send. destruct (sockets s !! ws) as [w|]; [|intros [= <-]; now left].
  destruct (readyState w); intros [= <-]; auto.
Qed.

(** C6: [sendMessage] changes nothing at all when the trimmed text is empty,
    when [wsRef] holds no transport, or when the status is not connected; in
    every state it either sends nothing or sends exactly one chat_message
    frame, on the transport of [wsRef], with the trimmed text; on an open
    transport, with a non-blank text and the status connected, it does send
    it; and it never touches [messages]. *)
Theorem send_is_gated s :
  (trim (currentMessage s) = [] \/ wsRef s = None
   \/ connectionStatus s <> connected -> sendMessage s = s) /\
  (sent (sendMessage s) = sent s \/
   exists ws, wsRef s = Some ws /\
     sent (sendMessage s) = sent s ++
       [(ws, frame "chat_message"
               (JObj [(lit "roomId", JStr (roomCode s));
                      (lit "sender", JStr (name s));
                      (lit "text", JStr (trim (currentMessage s)))]))]) /\
  (forall ws, trim (currentMessage s) <> [] -> wsRef s = Some ws ->
     connectionStatus s = connected -> ready ws s = Some OPEN ->
     sent (sendMessage s) = sent s ++ [(ws, chatMessage s)]) /\
  messages (sendMessage s) = messages s.
Proof.
  unfold sendMessage. repeat split.
  - intros [H|[H|H]].
    + now rewrite H.
    + rewrite H. now destruct (truthy_str _).
    + destruct (truthy_str _), (wsRef s), (connectionStatus s);
        try reflexivity. now contradiction H.
  - destruct (truthy_str _), (wsRef s) as [ws|], (connectionStatus s);
      try (now left).
    destruct (ws_send ws (chatMessage s) s) as [s1|] eqn:E; [|now left].
    apply ws_send_sent in E as [->| ->]; [now left|].
    right. exists ws. split; reflexivity.
  - intros ws Ht Hw Hc Hr. rewrite Hw, Hc.
    destruct (trim (currentMessage s)); [contradiction|]. simpl.
    unfold ready in Hr. destruct (sockets s !! ws) as [w|] eqn:E; [|discriminate].
    injection Hr as Hr. now rewrite (send_on_open s ws w _ E Hr).
  - destruct (truthy_str _), (wsRef s) as [ws|], (connectionStatus s);
      try reflexivity.
    destruct (ws_send ws (chatMessage s) s) as [s1|] eqn:E; [|reflexivity].
    apply ws_send_sent in E as [->| ->]; reflexivity.
Qed.

(** ** Leaving *)

(** C7, counterexample: after [leaveRoom] in a connected session the room
    code is still the one joined with, not the empty string.  And connected
    does not always come with a transport in [wsRef]: after [late_open] the
    status is connected, [wsRef] is empty and [leaveRoom] does nothing. *)
Lemma leave_keeps_roomCode :
  (connectionStatus in_room = connected /\
   connectionStatus (leaveRoom in_room) = disconnected /\
   roomCode (leaveRoom in_room) = ABCDEF /\
   roomCode (leaveRoom in_room) <> []) /\
  exists s, run initial late_open = Some s /\
    connectionStatus s = connected /\ wsRef s = None /\ leaveRoom s = s.
Proof.
  split.
  - vm_compute. repeat split. discriminate.
  - eexists. split; [vm_compute; reflexivity|]. now vm_compute.
Qed.

Lemma leaveRoom_open s ws w :
  wsRef s = Some ws -> sockets s !! ws = Some w -> readyState w = OPEN ->
  leaveRoom s =
    setParticipants (JArr [])
      (setMessages []
         (setConnectionStatus disconnected
            (set_wsRef None
               (set_sockets (<[ws := set_readyState CLOSING w]> (sockets s))
                  (set_sent (sent s ++ [(ws, leaveMessage s)]) s))))).
Proof.
  intros Hw E Hr. unfold leaveRoom. rewrite Hw.
  rewrite (send_on_open s ws w _ E Hr).
  unfold ws_close. simpl. now rewrite E, Hr.
Qed.

(** C7, amended: with an open transport in [wsRef] (the state a single join
    leads to once connected), [leaveRoom] sends exactly one leave frame on
    it, closes it, empties [wsRef], [messages] and [participants], sets the
    status to disconnected and leaves [roomCode] as it is; calling it again
    changes nothing. *)
Theorem leave_on_open_transport s ws :
  wsRef s = Some ws -> ready ws s = Some OPEN ->
  let s' := leaveRoom s in
  sent s' = sent s ++
    [(ws, frame "leave" (JObj [(lit "roomId", JStr (roomCode s));
                               (lit "userName", JStr (name s))]))] /\
  ready ws s' = Some CLOSING /\
  wsRef s' = None /\
  messages s' = [] /\
  participants s' = JArr [] /\
  connectionStatus s' = disconnected /\
  roomCode s' = roomCode s /\
  leaveRoom s' = s'.
Proof.
  intros Hw Hr s'. unfold ready in Hr.
  destruct (sockets s !! ws) as [w|] eqn:E; [|discriminate].
  injection Hr as Hr.
  subst s'. rewrite (leaveRoom_open s ws w Hw E Hr). simpl.
  repeat split.
  unfold ready. simpl. rewrite list_lookup_insert_eq; [reflexivity|].
  now apply lookup_lt_Some with w.
Qed.

Lemma leave_on_open_transport_witness :
  wsRef in_room = Some 0 /\ ready 0 in_room = Some OPEN /\
  connectionStatus in_room = connected /\
  leaveRoom (leaveRoom in_room) = leaveRoom in_room.
Proof.
  split; [reflexivity|]. split; [reflexivity|]. split; [reflexivity|].
  apply (leave_on_open_transport in_room 0 eq_refl eq_refl).
Defined.

(** ** Inbound frames *)

(** C8: a frame whose type is user_list and whose payload is [p] makes
    [participants] exactly [p], whatever it held before, and changes nothing
    else; in every state, so while connecting or connected on the open
    transport that delivers it. *)
Theorem user_list_replaces s msg p now :
  get_prop msg (lit "type") = Some (JStr (lit "user_list")) ->
  get_prop msg (lit "payload") = Some p ->
  ws_onmessage (Some msg) now s = Some (setParticipants p s) /\
  participants (setParticipants p s) = p /\
  (forall ws, ready ws s = Some OPEN ->
     step s (WsMessage ws (Some msg) now) = Some (setParticipants p s)).
Proof.
  intros Ht Hp.
  assert (ws_onmessage (Some msg) now s = Some (setParticipants p s)) as H.
  { unfold ws_onmessage. rewrite Ht. simpl. now rewrite Hp. }
  split; [exact H|]. split; [reflexivity|].
  intros ws Hr. simpl. now rewrite Hr.
Qed.

Lemma user_list_replaces_witness :
  let old := setParticipants (JArr [JStr (lit "carol")]) in_room in
  let p := JArr [JStr (lit "alice"); JStr bob] in
  connectionStatus old = connected /\
  participants old = JArr [JStr (lit "carol")] /\
  exists s', step old (WsMessage 0 (Some (frame "user_list" p)) 7%Z) = Some s'
    /\ participants s' = p.
Proof.
  split; [reflexivity|]. split; [reflexivity|].
  eexists. split.
  - apply (user_list_replaces
             (setParticipants (JArr [JStr (lit "carol")]) in_room)
             (frame "user_list" (JArr [JStr (lit "alice"); JStr bob]))
             (JArr [JStr (lit "alice"); JStr bob]) 7%Z eq_refl eq_refl).
    reflexivity.
  - reflexivity.
Defined.

(** C9: a text frame that [JSON.parse] rejects, or whose parsed value has no
    [type] among the four the handler's [switch] knows (room_joined,
    user_list, chat_message, error; so also {type:"ping"}, a value without
    [type], or [null]), is handled without an exception leaving the handler
    and leaves the whole state as it was, whatever the connection status and
    whichever transport delivers it. *)
Theorem unrecognized_frame_is_ignored s data now :
  (data = None \/
   exists v, data = Some v /\
     forall ty, get_prop v (lit "type") = Some ty -> handled_type ty = false) ->
  ws_onmessage data now s = Some s /\
  forall ws, step s (WsMessage ws data now) = Some s.
Proof.
  intros H.
  assert (ws_onmessage data now s = Some s) as E.
  { destruct H as [->|(v & -> & H)]; [reflexivity|].
    unfold ws_onmessage.
    destruct (get_prop v (lit "type")) as [ty|]; [|reflexivity].
    specialize (H ty eq_refl). unfold handled_type in H.
    repeat (apply orb_false_iff in H as [H ?]).
    now repeat match goal with E : _ = false |- _ => rewrite E; clear E end. }
  split; [exact E|].
  intros ws. simpl. rewrite E. now destruct (ready ws s) as [[]|].
Qed.

Lemma unrecognized_frame_is_ignored_witness :
  step in_room (WsMessage 0 (Some (frame "ping" JUndefined)) 7%Z)
  = Some in_room.
Proof.
  apply (unrecognized_frame_is_ignored in_room
           (Some (frame "ping" JUndefined)) 7%Z).
  right. eexists. split; [reflexivity|].
  intros ty [= <-]. reflexivity.
Defined.

(** The message handler neither reads nor writes [connectionStatus]. *)
Lemma onmessage_ignores_status c data now s :
  ws_onmessage data now (setConnectionStatus c s)
  = setConnectionStatus c <$> ws_onmessage data now s.
Proof.
  unfold ws_onmessage.
  repeat match goal with
         | |- context [match ?x with _ => _ end] => destruct x
         end; reflexivity.
Qed.

Lemma onmessage_keeps_status data now s s' :
  ws_onmessage data now s = Some s' -> connectionStatus s' = connectionStatus s.
Proof.
  unfold ws_onmessage.
  repeat match goal with
         | |- context [match ?x with _ => _ end] => destruct x
         end; intros [= <-]; reflexivity.
Qed.

Lemma room_joined_is_noop s msg now :
  get_prop msg (lit "type") = Some (JStr (lit "room_joined")) ->
  ws_onmessage (Some msg) now s = Some s.
Proof. intros H. unfold ws_onmessage. now rewrite H. Qed.

(** ** Becoming connected *)

(** C1, counterexample: name, code, join, and the transport opens.  No frame
    has arrived, yet the status has gone from connecting to connected. *)
Lemma connected_without_ack :
  existsb is_room_joined plain_join = false /\
  connectionStatus <$> run initial (take 3 plain_join) = Some connecting /\
  connectionStatus <$> run initial plain_join = Some connected.
Proof. vm_compute. repeat split. Qed.

Lemma join_never_connects s :
  connectionStatus (connectToWebSocket s) = connected ->
  connectionStatus s = connected.
Proof.
  unfold connectToWebSocket.
  destruct (negb _); [easy|]. destruct (_ || _); [easy|]. discriminate.
Qed.

Lemma send_keeps_status s :
  connectionStatus (sendMessage s) = connectionStatus s.
Proof.
  unfold sendMessage.
  destruct (truthy_str _), (wsRef s) as [ws|], (connectionStatus s) eqn:E;
    try first [reflexivity | exact E].
  destruct (ws_send ws (chatMessage s) s) as [s1|] eqn:Es; [|exact E].
  apply ws_send_sent in Es as [->| ->]; exact E.
Qed.

Lemma leave_never_connects s :
  connectionStatus (leaveRoom s) = connected -> connectionStatus s = connected.
Proof.
  unfold leaveRoom. destruct (wsRef s) as [ws|]; [|easy].
  destruct (ws_send ws (leaveMessage s) s); [discriminate|easy].
Qed.

(** C1, amended: the status becomes connected exactly when the [open] event
    fires on a transport that is still connecting; no other event, and so no
    inbound frame (room_joined included), brings a session that is not
    connected to connected. *)
Theorem connected_by_open s e s' :
  step s e = Some s' -> connectionStatus s <> connected ->
  (connectionStatus s' = connected <->
   exists ws, e = WsOpen ws /\ ready ws s = Some CONNECTING).
Proof.
  intros Hs Hn. split.
  - intros Hc. destruct e; simpl in Hs;
      try (injection Hs as <-; contradiction Hn; exact Hc).
    + injection Hs as <-. now apply join_never_connects in Hc.
    + injection Hs as <-. now rewrite send_keeps_status in Hc.
    + injection Hs as <-. now apply leave_never_connects in Hc.
    + exists ws. split; [reflexivity|].
      destruct (ready ws s) as [[]|]; try reflexivity;
        injection Hs as <-; contradiction.
    + destruct (ready ws s) as [[]|];
        try (injection Hs as <-; contradiction).
      apply onmessage_keeps_status in Hs. congruence.
    + destruct (ready ws s) as [[]|]; injection Hs as <-;
        first [contradiction | discriminate].
    + destruct (ready ws s) as [[]|]; injection Hs as <-;
        first [contradiction | discriminate].
  - intros (ws & -> & Hr). unfold ready in Hr.
    destruct (sockets s !! ws) as [w|] eqn:E; [|discriminate].
    injection Hr as Hr. rewrite (open_fires s ws w E Hr) in Hs.
    now injection Hs as <-.
Qed.

Lemma connected_by_open_witness :
  let s := connectToWebSocket (filled al ABCDEF) in
  connectionStatus s = connecting /\
  (connectionStatus in_room = connected <->
   exists ws, WsOpen 0 = WsOpen ws /\ ready ws s = Some CONNECTING).
Proof.
  split; [reflexivity|].
  apply (connected_by_open (connectToWebSocket (filled al ABCDEF))
           (WsOpen 0) in_room eq_refl).
  discriminate.
Defined.

(** ** Losing the transport *)

(** C2, the code at the failing input: after a close or an error of the
    transport of a connected session, the status is disconnected while
    [participants] and [messages] still hold what the room sent;
    [leaveRoom], in the same session, empties both. *)
Theorem transport_loss_keeps_room_view :
  (exists s, run initial (visit_then (WsClose 0)) = Some s /\
     connectionStatus s = disconnected /\
     participants s = JArr [JStr al; JStr bob] /\
     messages s = [{| sender := JStr bob; text := JStr hi; timestamp := 2 |}]) /\
  (exists s, run initial (visit_then (WsError 0)) = Some s /\
     connectionStatus s = disconnected /\
     participants s = JArr [JStr al; JStr bob] /\
     messages s = [{| sender := JStr bob; text := JStr hi; timestamp := 2 |}]) /\
  (exists s, run initial (visit_then Leave) = Some s /\
     connectionStatus s = disconnected /\
     participants s = JArr [] /\
     messages s = []).
Proof.
  repeat split; eexists; (split; [vm_compute; reflexivity|]);
    vm_compute; repeat split.
Qed.

(** The two handlers for a lost transport set the status (and the error) and
    nothing else. *)
Lemma onclose_keeps_room_view s :
  messages (ws_onclose s) = messages s /\
  participants (ws_onclose s) = participants s /\
  messages (ws_onclose (ws_onerror s)) = messages s /\
  participants (ws_onclose (ws_onerror s)) = participants s.
Proof. repeat split. Qed.

(** ** Frames after leaving *)

(** C5, counterexample: in the disconnected state after [leave_one_of_two],
    a chat_message, a user_list and an error frame arriving on the transport
    that is still open are each handled, not ignored. *)
Lemma frames_handled_while_disconnected :
  exists s, run initial leave_one_of_two = Some s /\
    connectionStatus s = disconnected /\
    messages s = [] /\ participants s = JArr [] /\ error s = JNull /\
    (messages <$> step s (WsMessage 0 (chat_frame bob hi) 9%Z)
     = Some [{| sender := JStr bob; text := JStr hi; timestamp := 9 |}]) /\
    (participants <$> step s (WsMessage 0 (Some (frame "user_list"
                                                   (JArr [JStr bob]))) 9%Z)
     = Some (JArr [JStr bob])) /\
    (error <$> step s (WsMessage 0 (Some (frame "error"
                         (JObj [(lit "message", JStr (lit "Room full"))]))) 9%Z)
     = Some (JStr (lit "Room full"))).
Proof.
  eexists. split; [vm_compute; reflexivity|]. vm_compute. repeat split.
Qed.

(** C5, amended: once [leaveRoom] has closed the transport of [wsRef], the
    status is disconnected and no frame of any kind arrives on that
    transport any more; a room_joined frame changes nothing on whichever
    transport it arrives; the handler has no guard on the status, though: it
    treats every frame while disconnected as it does while connecting or
    connected. *)
Theorem frames_after_leave s ws :
  wsRef s = Some ws -> ready ws s = Some OPEN ->
  connectionStatus (leaveRoom s) = disconnected /\
  (forall data now,
     step (leaveRoom s) (WsMessage ws data now) = Some (leaveRoom s)) /\
  (forall ws' msg now,
     get_prop msg (lit "type") = Some (JStr (lit "room_joined")) ->
     step (leaveRoom s) (WsMessage ws' (Some msg) now) = Some (leaveRoom s)) /\
  (forall c data now s0,
     ws_onmessage data now (setConnectionStatus c s0)
     = setConnectionStatus c <$> ws_onmessage data now s0).
Proof.
  intros Hw Hr.
  assert (connectionStatus (leaveRoom s) = disconnected
          /\ ready ws (leaveRoom s) = Some CLOSING) as [Hd Hc].
  { unfold ready in Hr. destruct (sockets s !! ws) as [w|] eqn:E; [|discriminate].
    injection Hr as Hr. rewrite (leaveRoom_open s ws w Hw E Hr).
    split; [reflexivity|]. unfold ready. simpl.
    rewrite list_lookup_insert_eq; [reflexivity|].
    now apply lookup_lt_Some with w. }
  split; [exact Hd|]. split; [|split].
  - intros data now. unfold step. now rewrite Hc.
  - intros ws' msg now Ht. unfold step.
    rewrite (room_joined_is_noop _ msg now Ht).
    now destruct (ready ws' (leaveRoom s)) as [[]|].
  - intros. apply onmessage_ignores_status.
Qed.

Lemma frames_after_leave_witness :
  wsRef in_room = Some 0 /\ ready 0 in_room = Some OPEN /\
  step (leaveRoom in_room) (WsMessage 0 (chat_frame bob hi) 9%Z)
  = Some (leaveRoom in_room).
Proof.
  split; [reflexivity|]. split; [reflexivity|].
  exact (proj1 (proj2 (frames_after_leave in_room 0 eq_refl eq_refl))
           (chat_frame bob hi) 9%Z).
Defined.

(** ** The name on the wire *)

(** A join that passes validation, followed by the opening of its
    transport. *)
Lemma join_then_open s :
  trim (name s) <> [] -> trim (roomCode s) <> [] -> length (roomCode s) = 6 ->
  let ws := length (sockets s) in
  exists s2,
    step (connectToWebSocket s) (WsOpen ws) = Some s2 /\
    sent s2 = sent s ++
      [(ws, frame "join" (JObj [(lit "roomId", JStr (roomCode s));
                                (lit "userName", JStr (trim (name s)))]))] /\
    wsRef s2 = Some ws /\ ready ws s2 = Some OPEN /\
    connectionStatus s2 = connected /\
    name s2 = name s /\ roomCode s2 = roomCode s.
Proof.
  intros Hn Hc Hl ws. rewrite (validation_passes s Hn Hc Hl). fold ws.
  eexists. split.
  - apply open_fires with
      (w := {| readyState := CONNECTING; cl_roomCode := roomCode s;
               cl_name := name s |}); [|reflexivity].
    simpl. now apply list_lookup_middle.
  - repeat split. unfold ready, become. simpl.
    rewrite list_lookup_alter_eq, list_lookup_middle by reflexivity.
    reflexivity.
Qed.

(** C10: for a name that starts or ends with white space (and a join that
    passes validation), the join frame sent when the transport opens carries
    the trimmed name as [userName], while the chat_message frame of every
    later [sendMessage] and the leave frame of [leaveRoom] carry the name as
    typed, as [sender] and [userName]; the two differ. *)
Theorem wire_name_differs s :
  has_outer_ws (name s) = true ->
  trim (name s) <> [] -> trim (roomCode s) <> [] -> length (roomCode s) = 6 ->
  let ws := length (sockets s) in
  exists s2,
    step (connectToWebSocket s) (WsOpen ws) = Some s2 /\
    sent s2 = sent s ++
      [(ws, frame "join" (JObj [(lit "roomId", JStr (roomCode s));
                                (lit "userName", JStr (trim (name s)))]))] /\
    (forall t, trim t <> [] ->
       sent (sendMessage (setCurrentMessage t s2)) = sent s2 ++
         [(ws, frame "chat_message"
                 (JObj [(lit "roomId", JStr (roomCode s));
                        (lit "sender", JStr (name s));
                        (lit "text", JStr (trim t))]))]) /\
    sent (leaveRoom s2) = sent s2 ++
      [(ws, frame "leave" (JObj [(lit "roomId", JStr (roomCode s));
                                 (lit "userName", JStr (name s))]))] /\
    JStr (trim (name s)) <> JStr (name s).
Proof.
  intros Hws Hn Hc Hl ws.
  destruct (join_then_open s Hn Hc Hl) as (s2 & Hs & Hj & Hw & Hr & Hst & En & Ec).
  fold ws in Hs, Hj, Hw, Hr.
  exists s2. split; [exact Hs|]. split; [exact Hj|].
  unfold ready in Hr. destruct (sockets s2 !! ws) as [w|] eqn:E; [|discriminate].
  injection Hr as Hr. split; [|split].
  - intros t Ht. unfold sendMessage. simpl. rewrite Hw, Hst.
    destruct (trim t) eqn:Et; [contradiction|]. simpl.
    rewrite (send_on_open (setCurrentMessage t s2) ws w _ E Hr).
    unfold chatMessage. simpl. now rewrite En, Ec, Et.
  - rewrite (leaveRoom_open s2 ws w Hw E Hr). unfold leaveMessage. simpl.
    now rewrite En, Ec.
  - intros [= H]. now apply (trim_changes _ Hws).
Qed.

Lemma wire_name_differs_witness :
  let s := filled (lit " al ") ABCDEF in
  has_outer_ws (name s) = true /\
  exists s2,
    step (connectToWebSocket s) (WsOpen 0) = Some s2 /\
    sent s2 =
      [(0, frame "join" (JObj [(lit "roomId", JStr ABCDEF);
                               (lit "userName", JStr al)]))] /\
    sent (leaveRoom s2) = sent s2 ++
      [(0, frame "leave" (JObj [(lit "roomId", JStr ABCDEF);
                                (lit "userName", JStr (lit " al "))]))].
Proof.
  split; [reflexivity|].
  destruct (wire_name_differs (filled (lit " al ") ABCDEF) eq_refl
              ltac:(discriminate) ltac:(discriminate) eq_refl)
    as (s2 & Hs & Hj & _ & Hl & _).
  exists s2. split; [exact Hs|]. split; [exact Hj|exact Hl].
Defined.

(** ** Room codes made by the component *)

Lemma characters_lookup k c :
  characters !! k = Some c -> existsb (N.eqb c) characters = true.
Proof.
  intros H. apply existsb_exists. exists c. split; [|apply N.eqb_refl].
  apply list_elem_of_In. now apply list_elem_of_lookup_2 with k.
Qed.

(** X1: whenever each of the six random indices lies below the length of
    [characters] (which [Math.floor(Math.random() * 36)] guarantees),
    [generateRandomCode] replaces [roomCode] with six characters out of A-Z
    and 0-9 and touches nothing else; with a name that is not blank, the
    join that follows is accepted and constructs a transport. *)
Theorem generated_code_is_valid random s :
  (forall i, i < 6 -> random i < 36) ->
  let s' := generateRandomCode random s in
  valid_code (roomCode s') = true /\
  s' = setRoomCode (roomCode s') s /\
  (trim (name s) <> [] ->
   connectionStatus (connectToWebSocket s') = connecting /\
   sockets (connectToWebSocket s') = sockets s ++
     [{| readyState := CONNECTING; cl_roomCode := roomCode s';
         cl_name := name s |}]).
Proof.
  intros Hr s'.
  assert (forall i, i < 6 ->
            exists c, characters !! random i = Some c) as Hc.
  { intros i Hi. apply lookup_lt_is_Some_2. specialize (Hr i Hi).
    change (length characters) with 36. exact Hr. }
  assert (valid_code (roomCode s') = true) as Hv.
  { subst s'. unfold generateRandomCode. cbn [roomCode setRoomCode seq fold_left].
    destruct (Hc 0) as [c0 E0]; [lia|]. destruct (Hc 1) as [c1 E1]; [lia|].
    destruct (Hc 2) as [c2 E2]; [lia|]. destruct (Hc 3) as [c3 E3]; [lia|].
    destruct (Hc 4) as [c4 E4]; [lia|]. destruct (Hc 5) as [c5 E5]; [lia|].
    rewrite E0, E1, E2, E3, E4, E5. unfold valid_code.
    cbn [app length Nat.eqb forallb andb].
    now rewrite (characters_lookup _ _ E0), (characters_lookup _ _ E1),
      (characters_lookup _ _ E2), (characters_lookup _ _ E3),
      (characters_lookup _ _ E4), (characters_lookup _ _ E5). }
  split; [exact Hv|]. split; [reflexivity|].
  intros Hn. apply valid_code_passes in Hv as [Hv Hl].
  rewrite (validation_passes s' Hn Hv Hl). split; reflexivity.
Qed.

Lemma generated_code_is_valid_witness :
  let random := fun i => i * 7 in
  (forall i, i < 6 -> random i < 36) /\
  roomCode (generateRandomCode random initial) = lit "AHOV29" /\
  valid_code (roomCode (generateRandomCode random initial)) = true.
Proof.
  split; [intros i Hi; cbv beta; lia|]. split; [reflexivity|].
  exact (proj1 (generated_code_is_valid (fun i => i * 7) initial
                  ltac:(intros i Hi; cbv beta; lia))).
Defined.

(** ** Sending and leaving on a transport that is not open *)

Example first_of_two_open_reached :
  run initial [NameInput al; RoomCodeInput ABCDEF; Join; Join; WsOpen 0]
  = Some first_of_two_open.
Proof. vm_compute. reflexivity. Qed.

Example second_of_two_lost_reached :
  run initial [NameInput al; RoomCodeInput ABCDEF; Join; Join; WsClose 1;
               WsOpen 0]
  = Some second_of_two_lost.
Proof. vm_compute. reflexivity. Qed.

(** X2: a second [sendMessage] right after the first changes nothing: a sent
    text is not sent twice, because the first call empties the input. *)
Theorem send_twice_sends_once s : sendMessage (sendMessage s) = sendMessage s.
Proof.
  assert (sendMessage s = s \/
          exists s1, sendMessage s = setCurrentMessage [] s1) as [E|[s1 E]].
  { unfold sendMessage.
    destruct (truthy_str _), (wsRef s) as [ws|], (connectionStatus s);
      try (now left).
    destruct (ws_send ws (chatMessage s) s) as [s1|]; [|now left].
    right. now exists s1. }
  - now rewrite E.
  - rewrite E. reflexivity.
Qed.

(** X3: with the status connected and a text that is not blank, but the
    transport of [wsRef] closing or closed, [sendMessage] empties the input
    and sends nothing: the text is lost without a trace. *)
Theorem send_on_dead_transport s ws :
  trim (currentMessage s) <> [] -> wsRef s = Some ws ->
  connectionStatus s = connected ->
  ready ws s = Some CLOSING \/ ready ws s = Some CLOSED ->
  sendMessage s = setCurrentMessage [] s /\
  sent (sendMessage s) = sent s /\ currentMessage (sendMessage s) = [].
Proof.
  intros Ht Hw Hc Hr.
  assert (sendMessage s = setCurrentMessage [] s) as ->; [|now repeat split].
  unfold sendMessage. rewrite Hw, Hc.
  destruct (trim (currentMessage s)); [contradiction|]. simpl.
  unfold ws_send. unfold ready in Hr.
  destruct (sockets s !! ws) as [w|]; [|destruct Hr; discriminate].
  simpl in Hr. destruct (readyState w); destruct Hr; try discriminate;
    reflexivity.
Qed.

Lemma send_on_dead_transport_witness :
  let s := setCurrentMessage hi second_of_two_lost in
  connectionStatus s = connected /\ ready 1 s = Some CLOSED /\
  sent (sendMessage s) = sent s /\ currentMessage (sendMessage s) = [].
Proof.
  split; [reflexivity|]. split; [reflexivity|].
  exact (proj2 (send_on_dead_transport
                  (setCurrentMessage hi second_of_two_lost) 1
                  ltac:(discriminate) eq_refl eq_refl (or_intror eq_refl))).
Defined.

(** X4: while the transport of [wsRef] is still connecting, [leaveRoom] and
    [sendMessage] change nothing at all (their [send] throws): the transport
    is not closed and the session is not reset, whatever the status. *)
Theorem leave_on_connecting_transport s ws :
  wsRef s = Some ws -> ready ws s = Some CONNECTING ->
  leaveRoom s = s /\ sendMessage s = s.
Proof.
  intros Hw Hr. unfold ready in Hr.
  destruct (sockets s !! ws) as [w|] eqn:E; [|discriminate].
  injection Hr as Hr. unfold leaveRoom, sendMessage, ws_send.
  rewrite Hw, E, Hr. split; [reflexivity|].
  now destruct (truthy_str _), (connectionStatus s).
Qed.

Lemma leave_on_connecting_transport_witness :
  connectionStatus first_of_two_open = connected /\
  wsRef first_of_two_open = Some 1 /\
  leaveRoom first_of_two_open = first_of_two_open.
Proof.
  split; [reflexivity|]. split; [reflexivity|].
  exact (proj1 (leave_on_connecting_transport first_of_two_open 1
                  eq_refl eq_refl)).
Defined.

(** ** The close of a transport the session no longer uses *)

Lemma ready_become_other r ws ws' s :
  ws <> ws' -> ready ws' (become r ws s) = ready ws' s.
Proof.
  intros H. unfold ready, become. simpl.
  now rewrite list_lookup_alter_ne.
Qed.

(** X5: the close and the error of any transport that is not yet closed set
    the status to disconnected, also when [wsRef] holds another transport:
    that one stays in [wsRef] in the ready state it had, and [messages],
    [participants] and the frames sent stay as they are. *)
Theorem close_of_another_transport s ws ws' r :
  ready ws s = Some r -> r <> CLOSED -> wsRef s = Some ws' -> ws <> ws' ->
  forall e, e = WsClose ws \/ e = WsError ws ->
  exists s', step s e = Some s' /\
    connectionStatus s' = disconnected /\
    wsRef s' = Some ws' /\ ready ws' s' = ready ws' s /\
    messages s' = messages s /\ participants s' = participants s /\
    sent s' = sent s.
Proof.
  intros Hr Hn Hw Hne e [->| ->]; simpl; rewrite Hr;
    destruct r; try contradiction; eexists; (split; [reflexivity|]);
    repeat split; try exact Hw;
    unfold ready, become; simpl; now rewrite list_lookup_alter_ne.
Qed.

Lemma close_of_another_transport_witness :
  exists s s',
    run initial (take 7 rejoin_then_late_close) = Some s /\
    connectionStatus s = connected /\ wsRef s = Some 1 /\
    step s (WsClose 0) = Some s' /\
    connectionStatus s' = disconnected /\ ready 1 s' = Some OPEN.
Proof.
  eexists.
  destruct (close_of_another_transport
              (ws_onopen 1 (become OPEN 1
                 (connectToWebSocket (leaveRoom in_room))))
              0 1 CLOSING eq_refl ltac:(discriminate) eq_refl
              ltac:(discriminate) (WsClose 0) (or_introl eq_refl))
    as (s' & Hs & Hc & _ & Hr & _).
  exists s'. split; [vm_compute; reflexivity|].
  split; [reflexivity|]. split; [reflexivity|].
  split; [exact Hs|]. split; [exact Hc|]. rewrite Hr. reflexivity.
Defined.

(** ** Unmounting *)

Lemma unmount_live s ws w :
  wsRef s = Some ws -> sockets s !! ws = Some w -> rank (readyState w) < 2 ->
  unmount s = set_sockets (<[ws := set_readyState CLOSING w]> (sockets s)) s.
Proof.
  intros Hw E Hk. unfold unmount, ws_close. rewrite Hw, E.
  destruct (readyState w); simpl in Hk; first [reflexivity | lia].
Qed.

Lemma unmount_idle s :
  wsRef s = None \/
  (exists ws, wsRef s = Some ws /\ sockets s !! ws = None) \/
  (exists ws w, wsRef s = Some ws /\ sockets s !! ws = Some w /\
     2 <= rank (readyState w)) ->
  unmount s = s.
Proof.
  unfold unmount, ws_close.
  intros [H|[(ws & H & E)|(ws & w & H & E & Hk)]]; rewrite H; try reflexivity;
    rewrite E; try reflexivity.
  destruct (readyState w); simpl in Hk; first [reflexivity | lia].
Qed.

(** X6: the cleanup on unmount sends no frame (no leave frame either) and
    resets nothing; it does nothing when [wsRef] is empty; otherwise the
    transport of [wsRef] is closing or closed afterwards, and every other
    transport keeps the ready state it had. *)
Theorem unmount_closes_only_wsRef s :
  sent (unmount s) = sent s /\
  messages (unmount s) = messages s /\
  connectionStatus (unmount s) = connectionStatus s /\
  wsRef (unmount s) = wsRef s /\
  (wsRef s = None -> unmount s = s) /\
  (forall ws r, wsRef s = Some ws -> ready ws s = Some r ->
     ready ws (unmount s) = Some (if rank r <? 2 then CLOSING else r)) /\
  (forall ws, wsRef s <> Some ws -> ready ws (unmount s) = ready ws s).
Proof.
  destruct (wsRef s) as [ws0|] eqn:Hw.
  2:{ rewrite (unmount_idle s) by now left.
      repeat split; try discriminate. exact Hw. }
  destruct (sockets s !! ws0) as [w|] eqn:E.
  2:{ rewrite (unmount_idle s) by (right; left; eauto).
      repeat split; try discriminate; try exact Hw.
      intros ws r [= <-] Hr. unfold ready in Hr. now rewrite E in Hr. }
  destruct (rank (readyState w) <? 2) eqn:Ek.
  - apply Nat.ltb_lt in Ek. rewrite (unmount_live s ws0 w Hw E Ek).
    repeat split; try discriminate; try exact Hw.
    + intros ws r [= <-] Hr. unfold ready in *. rewrite E in Hr.
      injection Hr as <-. simpl.
      rewrite list_lookup_insert_eq by (now apply lookup_lt_Some with w).
      apply Nat.ltb_lt in Ek. now rewrite Ek.
    + intros ws Hne. unfold ready. simpl.
      rewrite list_lookup_insert_ne; [reflexivity|congruence].
  - pose proof Ek as Ek'. apply Nat.ltb_ge in Ek.
    rewrite (unmount_idle s) by (right; right; eauto).
    repeat split; try discriminate; try exact Hw.
    intros ws r [= <-] Hr. unfold ready in *. rewrite E in *.
    injection Hr as <-. simpl. now rewrite Ek'.
Qed.

(** ** Chat messages *)

(** X7: the chat_message frame that [sendMessage] builds, sent back as it
    is, is taken in by the message handler as a message with the name as
    typed for [sender] and the trimmed text, appended at the end, and the
    chat view marks it as the user's own.  A message whose [sender] is the
    trimmed name is not marked so when the name has outer white space. *)
Theorem chat_frame_round_trip s now :
  let m := {| sender := JStr (name s);
              text := JStr (trim (currentMessage s));
              timestamp := now |} in
  new_message (chatMessage s) now = Some m /\
  ws_onmessage (Some (chatMessage s)) now s
    = Some (setMessages (messages s ++ [m]) s) /\
  own_message m s = true /\
  (has_outer_ws (name s) = true ->
   own_message {| sender := JStr (trim (name s)); text := text m;
                  timestamp := now |} s = false).
Proof.
  intros m. split; [reflexivity|]. split; [reflexivity|]. split.
  - unfold own_message. simpl. now apply bool_decide_eq_true.
  - intros H. unfold own_message. simpl. apply bool_decide_eq_false.
    now apply trim_changes.
Qed.

Lemma chat_burst_step s ws from body now :
  ready ws s = Some OPEN ->
  step s (WsMessage ws (chat_frame from body) now)
  = Some (setMessages
            (messages s ++
               [{| sender := JStr from; text := JStr body; timestamp := now |}])
            s).
Proof. intros H. simpl. now rewrite H. Qed.

(** X8: chat_message frames that arrive one after the other on an open
    transport end up in [messages] in the order of arrival, after what was
    there, each with its own time of arrival; nothing is dropped, merged or
    reordered, and nothing else changes. *)
Theorem chat_frames_keep_order s ws (l : list (jsstring * jsstring * Z)) :
  ready ws s = Some OPEN ->
  run s (List.map (fun x => WsMessage ws (chat_frame x.1.1 x.1.2) x.2) l)
  = Some (setMessages
            (messages s ++
               List.map (fun x => {| sender := JStr x.1.1; text := JStr x.1.2;
                                     timestamp := x.2 |}) l)
            s).
Proof.
  revert s. induction l as [|[[from body] now] l IH]; intros s H.
  - simpl. rewrite app_nil_r. now destruct s.
  - cbn [List.map run fst snd].
    rewrite (chat_burst_step s ws from body now H).
    rewrite IH by exact H. simpl. now rewrite <- app_assoc.
Qed.

Lemma chat_frames_keep_order_witness :
  messages <$> run in_room [WsMessage 0 (chat_frame al hi) 1%Z;
                            WsMessage 0 (chat_frame bob (lit "yo")) 2%Z;
                            WsMessage 0 (chat_frame al hi) 3%Z]
  = Some [{| sender := JStr al; text := JStr hi; timestamp := 1 |};
          {| sender := JStr bob; text := JStr (lit "yo"); timestamp := 2 |};
          {| sender := JStr al; text := JStr hi; timestamp := 3 |}].
Proof.
  pose proof (chat_frames_keep_order in_room 0
                [(al, hi, 1%Z); (bob, lit "yo", 2%Z); (al, hi, 3%Z)]
                eq_refl) as H.
  cbn [List.map fst snd] in H. rewrite H. reflexivity.
Defined.

(** ** What the message handler's [try] does not cover *)




(** X10: a frame of type error never makes the handler fail and never
    touches the connection: with a payload that is absent or [null] it
    changes nothing; otherwise [error] becomes [payload.message] (which is
    [undefined] when the payload has no such property) and the status, the
    messages, the participants, the transports and the frames sent stay as
    they are. *)
Theorem error_frame_sets_only_error s msg now :
  get_prop msg (lit "type") = Some (JStr (lit "error")) ->
  (exists s', ws_onmessage (Some msg) now s = Some s' /\
     connectionStatus s' = connectionStatus s /\
     messages s' = messages s /\ participants s' = participants s /\
     wsRef s' = wsRef s /\ sockets s' = sockets s /\ sent s' = sent s) /\
  (forall p m, get_prop msg (lit "payload") = Some p ->
     get_prop p (lit "message") = Some m ->
     ws_onmessage (Some msg) now s = Some (setError m s)) /\
  (get_prop msg (lit "payload") = Some JUndefined \/
   get_prop msg (lit "payload") = Some JNull ->
   ws_onmessage (Some msg) now s = Some s).
Proof.
  intros Ht.
  assert (ws_onmessage (Some msg) now s =
          match get_prop msg (lit "payload") with
          | Some payload =>
              match get_prop payload (lit "message") with
              | Some m => Some (setError m s)
              | None => Some s
              end
          | None => Some s
          end) as E.
  { unfold ws_onmessage. now rewrite Ht. }
  rewrite E. split; [|split].
  - destruct (get_prop msg (lit "payload")) as [p|]; [|now exists s].
    destruct (get_prop p (lit "message")) as [m|]; [|now exists s].
    now exists (setError m s).
  - intros p m -> ->. reflexivity.
  - intros [-> | ->]; reflexivity.
Qed.

Lemma error_frame_sets_only_error_witness :
  error <$> ws_onmessage
              (Some (frame "error" (JObj [(lit "message",
                                           JStr (lit "Room full"))])))
              7%Z in_room
  = Some (JStr (lit "Room full")).
Proof.
  rewrite (proj1 (proj2 (error_frame_sets_only_error in_room
             (frame "error" (JObj [(lit "message", JStr (lit "Room full"))]))
             7%Z eq_refl))
             (JObj [(lit "message", JStr (lit "Room full"))])
             (JStr (lit "Room full")) eq_refl eq_refl).
  reflexivity.
Defined.

(** ** The status and the message log, event by event *)

(** X11: the table of status changes.  An event that changes the status is
    a join (to connecting), the opening of a transport (to connected), or a
    leave, a close or an error (to disconnected); typing, sending and
    inbound frames never change it. *)
Theorem status_changes s e s' :
  step s e = Some s' -> connectionStatus s' <> connectionStatus s ->
  (e = Join /\ connectionStatus s' = connecting) \/
  (exists ws, e = WsOpen ws /\ connectionStatus s' = connected) \/
  ((e = Leave \/ exists ws, e = WsError ws \/ e = WsClose ws) /\
   connectionStatus s' = disconnected).
Proof.
  intros Hs Hn. destruct e; simpl in Hs;
    try (injection Hs as <-; now contradiction Hn).
  - injection Hs as <-. left. split; [reflexivity|].
    unfold connectToWebSocket in *.
    destruct (negb (truthy_str (trim (name s)))); [now contradiction Hn|].
    destruct (_ || _); [now contradiction Hn|]. reflexivity.
  - injection Hs as <-. now rewrite send_keeps_status in Hn.
  - injection Hs as <-. right. right. split; [now left|].
    unfold leaveRoom in *. destruct (wsRef s) as [ws|]; [|now contradiction Hn].
    destruct (ws_send ws (leaveMessage s) s); [reflexivity|].
    now contradiction Hn.
  - right. left. exists ws. split; [reflexivity|].
    destruct (ready ws s) as [[]|] eqn:Hr;
      try (injection Hs as <-; now contradiction Hn).
    unfold ready in Hr. destruct (sockets s !! ws) as [w|] eqn:E; [|discriminate].
    injection Hr as Hr. pose proof (open_fires s ws w E Hr) as Ho.
    simpl in Ho. unfold ready in Ho. rewrite E in Ho. simpl in Ho.
    rewrite Hr in Ho. rewrite Ho in Hs. now injection Hs as <-.
  - destruct (ready ws s) as [[]|];
      try (injection Hs as <-; now contradiction Hn).
    apply onmessage_keeps_status in Hs. now contradiction Hn.
  - right. right. split; [right; exists ws; now left|].
    destruct (ready ws s) as [[]|]; injection Hs as <-;
      first [reflexivity | now contradiction Hn].
  - right. right. split; [right; exists ws; now right|].
    destruct (ready ws s) as [[]|]; injection Hs as <-;
      first [reflexivity | now contradiction Hn].
Qed.

Lemma status_changes_witness :
  (Leave = Join /\ connectionStatus (leaveRoom in_room) = connecting) \/
  (exists ws, Leave = WsOpen ws /\
     connectionStatus (leaveRoom in_room) = connected) \/
  ((Leave = Leave \/ exists ws, Leave = WsError ws \/ Leave = WsClose ws) /\
   connectionStatus (leaveRoom in_room) = disconnected).
Proof.
  apply (status_changes in_room Leave (leaveRoom in_room) eq_refl).
  discriminate.
Defined.

(** X12: [messages] is append-only between leaves.  Every event leaves it
    as it is, except the arrival of a frame, which appends at most one
    message at the end, and a leave, which leaves it as it is or empties
    it. *)
Theorem messages_append_only s e s' :
  step s e = Some s' ->
  messages s' = messages s \/
  (exists ws data now m, e = WsMessage ws data now /\
     messages s' = messages s ++ [m]) \/
  (e = Leave /\ messages s' = []).
Proof.
  intros Hs. destruct e; simpl in Hs;
    try (injection Hs as <-; now left).
  - injection Hs as <-. left. unfold connectToWebSocket.
    destruct (negb _); [reflexivity|]. now destruct (_ || _).
  - injection Hs as <-. left. unfold sendMessage.
    destruct (truthy_str _), (wsRef s) as [ws|], (connectionStatus s);
      try reflexivity.
    destruct (ws_send ws (chatMessage s) s) as [s1|] eqn:Es; [|reflexivity].
    apply ws_send_sent in Es as [->| ->]; reflexivity.
  - injection Hs as <-. unfold leaveRoom. destruct (wsRef s) as [ws|]; [|now left].
    destruct (ws_send ws (leaveMessage s) s); [|now left].
    right. right. now split.
  - left. destruct (ready ws s) as [[]|] eqn:Hr;
      try (now injection Hs as <-).
    injection Hs as <-. unfold ws_onopen, ws_send, become. simpl.
    destruct (alter (set_readyState OPEN) ws (sockets s) !! ws) as [w|];
      [|reflexivity].
    now destruct (readyState w).
  - destruct (ready ws s) as [[]|]; try (injection Hs as <-; now left).
    unfold ws_onmessage in Hs.
    repeat match type of Hs with
           | context [match ?x with _ => _ end] => destruct x eqn:?
           end; try discriminate; injection Hs as <-;
      first [now left | right; left; eauto 10].
  - left. now destruct (ready ws s) as [[]|]; injection Hs as <-.
  - left. now destruct (ready ws s) as [[]|]; injection Hs as <-.
Qed.

Lemma messages_append_only_witness :
  messages in_room = [] /\
  exists s', step in_room (WsMessage 0 (chat_frame bob hi) 5%Z) = Some s' /\
    (messages s' = messages in_room \/
     (exists ws data now m,
        WsMessage 0 (chat_frame bob hi) 5%Z = WsMessage ws data now /\
        messages s' = messages in_room ++ [m]) \/
     (WsMessage 0 (chat_frame bob hi) 5%Z = Leave /\ messages s' = [])).
Proof.
  split; [reflexivity|]. eexists. split; [vm_compute; reflexivity|].
  apply (messages_append_only in_room (WsMessage 0 (chat_frame bob hi) 5%Z)).
  vm_compute. reflexivity.
Defined.

(** ** Trimming twice *)

Lemma trimStart_clean s c r : s = c :: r -> is_ws c = false -> trimStart s = s.
Proof. intros -> H. simpl. now rewrite H. Qed.

Lemma trimStart_idem (s : jsstring) : trimStart (trimStart s) = trimStart s.
Proof.
  destruct (trimStart s) as [|c r] eqn:E; [reflexivity|].
  apply trimStart_clean with c r; [reflexivity|].
  now apply trimStart_head with s r.
Qed.

Lemma trimStart_suffix (s : jsstring) : exists p, s = p ++ trimStart s.
Proof.
  induction s as [|c r [p IH]]; [now exists []|]. simpl.
  destruct (is_ws c); [|now exists []].
  exists (c :: p). simpl. now rewrite <- IH.
Qed.

Lemma trimEnd_prefix (s : jsstring) : exists t, s = trimEnd s ++ t.
Proof.
  destruct (trimStart_suffix (rev s)) as [p E]. exists (rev p).
  unfold trimEnd. rewrite <- rev_app_distr, <- E. now rewrite rev_involutive.
Qed.

Lemma trimEnd_idem (s : jsstring) : trimEnd (trimEnd s) = trimEnd s.
Proof. unfold trimEnd. now rewrite rev_involutive, trimStart_idem. Qed.

(** [trim] leaves its own results alone. *)
Lemma trim_idem (s : jsstring) : trim (trim s) = trim s.
Proof.
  unfold trim.
  assert (trimStart (trimEnd (trimStart s)) = trimEnd (trimStart s)) as ->;
    [|apply trimEnd_idem].
  destruct (trimEnd (trimStart s)) as [|c r] eqn:E; [reflexivity|].
  apply trimStart_clean with c r; [reflexivity|].
  destruct (trimEnd_prefix (trimStart s)) as [t Ht]. rewrite E in Ht.
  now apply trimStart_head with s (r ++ t).
Qed.

(** ** What an event does to the transports *)

Lemma alter_as_insert {A} (f : A -> A) (l : list A) i x :
  l !! i = Some x -> alter f i l = <[i := f x]> l.
Proof.
  revert i. induction l as [|a l IH]; intros [|i] H; simpl in *;
    try discriminate.
  - now injection H as ->.
  - f_equal. now apply IH.
Qed.

Lemma onmessage_keeps_transport data now s s' :
  ws_onmessage data now s = Some s' ->
  sockets s' = sockets s /\ sent s' = sent s /\ wsRef s' = wsRef s.
Proof.
  unfold ws_onmessage.
  repeat match goal with
         | |- context [match ?x with _ => _ end] => destruct x
         end; intros [= <-]; repeat split.
Qed.

Lemma join_transport s :
  (sockets (connectToWebSocket s) = sockets s /\
   sent (connectToWebSocket s) = sent s /\
   wsRef (connectToWebSocket s) = wsRef s) \/
  (validated {| readyState := CONNECTING; cl_roomCode := roomCode s;
                cl_name := name s |} /\
   sockets (connectToWebSocket s) = sockets s ++
     [{| readyState := CONNECTING; cl_roomCode := roomCode s;
         cl_name := name s |}] /\
   sent (connectToWebSocket s) = sent s /\
   wsRef (connectToWebSocket s) = Some (length (sockets s))).
Proof.
  destruct (trim (name s)) eqn:En.
  { left. unfold connectToWebSocket. rewrite En. now repeat split. }
  destruct (trim (roomCode s)) eqn:Ec.
  { left. unfold connectToWebSocket. rewrite En, Ec. now repeat split. }
  destruct (Nat.eq_dec (length (roomCode s)) 6) as [Hl|Hl].
  - right. rewrite validation_passes by (rewrite ?En, ?Ec; easy).
    unfold validated. simpl. rewrite En, Ec. now repeat split.
  - left. unfold connectToWebSocket. rewrite En, Ec.
    apply Nat.eqb_neq in Hl. rewrite Hl. now repeat split.
Qed.

Lemma step_transport s e s' : step s e = Some s' -> transport_step s s'.
Proof.
  intros Hs. destruct e; simpl in Hs;
    try (injection Hs as <-; now apply ts_same).
  - injection Hs as <-.
    destruct (join_transport s) as [(H1 & H2 & _)|(Hv & H1 & H2 & _)].
    + now apply ts_same.
    + eapply ts_new; [|exact Hv|exact H1|exact H2]. reflexivity.
  - injection Hs as <-. unfold sendMessage.
    destruct (trim (currentMessage s)) eqn:Et; [now apply ts_same|]. simpl.
    destruct (wsRef s) as [ws|]; [|now apply ts_same].
    destruct (connectionStatus s); try (now apply ts_same).
    unfold ws_send. destruct (sockets s !! ws) as [w|] eqn:E;
      [|now apply ts_same].
    destruct (readyState w) eqn:Er; try (now apply ts_same).
    apply ts_chat with ws w; try easy. now rewrite Et.
  - injection Hs as <-. unfold leaveRoom.
    destruct (wsRef s) as [ws|]; [|now apply ts_same].
    unfold ws_send, ws_close. destruct (sockets s !! ws) as [w|] eqn:E.
    + destruct (readyState w) eqn:Er.
      * now apply ts_same.
      * simpl. rewrite E, Er. now apply ts_leave with ws w.
      * rewrite E, Er. now apply ts_same.
      * rewrite E, Er. now apply ts_same.
    + rewrite E. now apply ts_same.
  - unfold ready in Hs. destruct (sockets s !! ws) as [w|] eqn:E;
      [|injection Hs as <-; now apply ts_same].
    simpl in Hs. destruct (readyState w) eqn:Er;
      try (injection Hs as <-; now apply ts_same).
    injection Hs as <-. unfold ws_onopen, ws_send, become. simpl.
    rewrite list_lookup_alter_eq, E. simpl.
    apply ts_open with ws w; try easy. simpl. now apply alter_as_insert.
  - destruct (ready ws s) as [[]|];
      try (injection Hs as <-; now apply ts_same).
    apply onmessage_keeps_transport in Hs as (H1 & H2 & _).
    now apply ts_same.
  - unfold ready in Hs. destruct (sockets s !! ws) as [w|] eqn:E;
      [|injection Hs as <-; now apply ts_same].
    simpl in Hs. destruct (readyState w) eqn:Er; injection Hs as <-;
      try (now apply ts_same);
      (apply ts_closed with ws w; [exact E|congruence| |reflexivity]);
      simpl; now apply alter_as_insert.
  - unfold ready in Hs. destruct (sockets s !! ws) as [w|] eqn:E;
      [|injection Hs as <-; now apply ts_same].
    simpl in Hs. destruct (readyState w) eqn:Er; injection Hs as <-;
      try (now apply ts_same);
      (apply ts_closed with ws w; [exact E|congruence| |reflexivity]);
      simpl; now apply alter_as_insert.
Qed.

(** A property that the initial state has and every event keeps holds after
    every run. *)
Lemma run_invariant (P : State -> Prop) :
  (forall s e s', P s -> step s e = Some s' -> P s') ->
  forall es s s', P s -> run s es = Some s' -> P s'.
Proof.
  intros Hstep. induction es as [|e es IH]; intros s s' Hp Hr; simpl in Hr.
  - now injection Hr as <-.
  - destruct (step s e) as [s1|] eqn:E; [|discriminate].
    apply (IH s1 s'); [|exact Hr]. now apply (Hstep s e).
Qed.

(** ** Transports over a whole session *)

Lemma transport_step_sockets s s' ws w :
  transport_step s s' -> sockets s !! ws = Some w ->
  exists w', sockets s' !! ws = Some w' /\
    cl_roomCode w' = cl_roomCode w /\ cl_name w' = cl_name w /\
    rank (readyState w) <= rank (readyState w').
Proof.
  assert (forall r w0 ws0, sockets s !! ws0 = Some w0 ->
            rank (readyState w0) <= rank r ->
            sockets s' = <[ws0 := set_readyState r w0]> (sockets s) ->
            sockets s !! ws = Some w ->
            exists w', sockets s' !! ws = Some w' /\
              cl_roomCode w' = cl_roomCode w /\ cl_name w' = cl_name w /\
              rank (readyState w) <= rank (readyState w')) as Hset.
  { intros r w0 ws0 E0 Hk -> E. destruct (decide (ws0 = ws)) as [->|Hne].
    - rewrite E in E0. injection E0 as <-. exists (set_readyState r w).
      rewrite list_lookup_insert_eq by (now apply lookup_lt_Some with w).
      now repeat split.
    - exists w. rewrite list_lookup_insert_ne by exact Hne. now repeat split. }
  intros [Hk _|w0 _ _ Hk _|ws0 w0 E0 Hr Hk _|ws0 w0 E0 Hr Hk _
         |ws0 w0 E0 Hr _ Hk _|ws0 w0 E0 Hr Hk _] E.
  - exists w. rewrite Hk. now repeat split.
  - exists w. rewrite Hk, lookup_app_l by (now apply lookup_lt_Some with w).
    now repeat split.
  - apply (Hset CLOSED w0 ws0); try easy. destruct (readyState w0); simpl; lia.
  - apply (Hset OPEN w0 ws0); try easy. rewrite Hr. simpl. lia.
  - exists w. rewrite Hk. now repeat split.
  - apply (Hset CLOSING w0 ws0); try easy. rewrite Hr. simpl. lia.
Qed.

(** X13: over any run of events a transport keeps the name and the code its
    handlers were created with, and its ready state only moves forward
    (connecting, open, closing, closed): a transport that was closed is never
    opened again, and none is ever dropped from the session. *)
Theorem transports_only_advance es s s' ws w :
  run s es = Some s' -> sockets s !! ws = Some w ->
  exists w', sockets s' !! ws = Some w' /\
    cl_roomCode w' = cl_roomCode w /\ cl_name w' = cl_name w /\
    rank (readyState w) <= rank (readyState w').
Proof.
  revert s w. induction es as [|e es IH]; intros s w Hr E; simpl in Hr.
  - injection Hr as <-. exists w. now repeat split.
  - destruct (step s e) as [s1|] eqn:Es; [|discriminate].
    apply step_transport in Es.
    destruct (transport_step_sockets s s1 ws w Es E) as (w1 & E1 & Hc & Hn & Hk).
    destruct (IH s1 w1 Hr E1) as (w' & E' & Hc' & Hn' & Hk').
    exists w'. repeat split; try congruence. lia.
Qed.

Lemma transports_only_advance_witness :
  exists w', sockets (leaveRoom in_room) !! 0 = Some w' /\
    cl_name w' = al /\ readyState w' = CLOSING.
Proof.
  destruct (transports_only_advance [Leave] in_room (leaveRoom in_room) 0
              {| readyState := OPEN; cl_roomCode := ABCDEF; cl_name := al |}
              eq_refl eq_refl) as (w' & E & _ & Hn & _).
  exists w'. split; [exact E|]. split; [exact Hn|].
  vm_compute in E. now injection E as <-.
Defined.

Lemma transport_step_sent s s' :
  transport_step s s' ->
  sent s' = sent s \/
  exists ws w f, sockets s !! ws = Some w /\ sent s' = sent s ++ [(ws, f)] /\
    (f = joinMessage w /\ readyState w = CONNECTING \/
     f = chatMessage s /\ readyState w = OPEN
       /\ trim (currentMessage s) <> [] \/
     f = leaveMessage s /\ readyState w = OPEN).
Proof.
  intros [_ H|w _ _ _ H|ws w _ _ _ H|ws w E Hr _ H
         |ws w E Hr Ht _ H|ws w E Hr _ H]; try (now left);
    right; exists ws, w; eexists; (split; [exact E|]);
    (split; [exact H|]); auto.
Qed.

(** X14: an event puts at most one frame on the wire, and the record of
    what was sent is never shortened or rewritten: after a run of [n]
    events the frames sent are the earlier ones followed by at most [n]
    more. *)
Theorem sent_only_grows es s s' :
  run s es = Some s' ->
  exists more, sent s' = sent s ++ more /\ length more <= length es.
Proof.
  revert s. induction es as [|e es IH]; intros s Hr; simpl in Hr.
  - injection Hr as <-. exists []. split; [now rewrite app_nil_r|simpl; lia].
  - destruct (step s e) as [s1|] eqn:Es; [|discriminate].
    destruct (IH s1 Hr) as (more & Hm & Hl).
    apply step_transport, transport_step_sent in Es
      as [Es|(ws & w & f & _ & Es & _)].
    + exists more. rewrite Hm, Es. split; [reflexivity|simpl; lia].
    + exists ((ws, f) :: more). rewrite Hm, Es, <- app_assoc.
      split; [reflexivity|simpl; lia].
Qed.

Lemma sent_only_grows_witness :
  exists more, sent (leaveRoom in_room) = sent in_room ++ more /\
    length more <= 1.
Proof.
  exact (sent_only_grows [Leave] in_room (leaveRoom in_room) eq_refl).
Defined.

Lemma validated_closure w w' :
  cl_roomCode w' = cl_roomCode w -> cl_name w' = cl_name w ->
  validated w -> validated w'.
Proof. unfold validated. now intros -> ->. Qed.

Lemma transport_step_validated s s' :
  transport_step s s' ->
  (forall ws w, sockets s !! ws = Some w -> validated w) ->
  forall ws w, sockets s' !! ws = Some w -> validated w.
Proof.
  assert (forall r w0 ws0, sockets s !! ws0 = Some w0 ->
            sockets s' = <[ws0 := set_readyState r w0]> (sockets s) ->
            (forall ws w, sockets s !! ws = Some w -> validated w) ->
            forall ws w, sockets s' !! ws = Some w -> validated w) as Hset.
  { intros r w0 ws0 E0 -> Hv ws w E.
    apply list_lookup_insert_Some in E as [(-> & <- & _)|(_ & E)].
    - apply validated_closure with w0; try reflexivity. now apply Hv with ws.
    - now apply Hv with ws. }
  intros [Hk _|w0 _ Hv0 Hk _|ws0 w0 E0 _ Hk _|ws0 w0 E0 _ Hk _
         |ws0 w0 E0 _ _ Hk _|ws0 w0 E0 _ Hk _] Hv ws w E;
    try (now apply (Hset _ w0 ws0 E0 Hk Hv ws w E)).
  - rewrite Hk in E. now apply Hv with ws.
  - rewrite Hk in E. apply lookup_app_Some in E as [E|[_ E]].
    + now apply Hv with ws.
    + destruct (ws - length (sockets s)); simpl in E; [|discriminate].
      now injection E as <-.
  - rewrite Hk in E. now apply Hv with ws.
Qed.

Lemma wire_ok_join w : validated w -> wire_ok (joinMessage w).
Proof.
  intros (Hn & Hc & Hl). apply wire_join; try assumption. apply trim_idem.
Qed.

(** X15: every frame a session puts on the wire is one of three: a join
    frame with a room id of exactly six code units, not blank, and a user
    name that is not empty and has no white space around it; a chat_message
    frame with a text that is not empty and has no white space around it; or
    a leave frame. *)
Theorem frames_on_the_wire es s :
  run initial es = Some s ->
  forall ws f, In (ws, f) (sent s) -> wire_ok f.
Proof.
  intros Hr.
  enough ((forall ws w, sockets s !! ws = Some w -> validated w) /\
          (forall ws f, In (ws, f) (sent s) -> wire_ok f)) as [_ H];
    [exact H|].
  refine (run_invariant
            (fun s => (forall ws w, sockets s !! ws = Some w -> validated w) /\
                      (forall ws f, In (ws, f) (sent s) -> wire_ok f))
            _ es initial s _ Hr).
  - clear. intros s e s' [Hv Hw] Hs. apply step_transport in Hs.
    split; [now apply (transport_step_validated s s' Hs)|].
    intros ws f Hin.
    destruct (transport_step_sent s s' Hs)
      as [E|(ws0 & w & f0 & E0 & E & Hf)]; rewrite E in Hin.
    + now apply Hw with ws.
    + apply in_app_or in Hin as [Hin|[[= <- <-]|[]]]; [now apply Hw with ws|].
      destruct Hf as [(-> & _)|[(-> & _ & Ht)|(-> & _)]].
      * apply wire_ok_join. now apply Hv with ws0.
      * apply wire_chat; [exact Ht|apply trim_idem].
      * apply wire_leave.
  - split; [intros ws w E; discriminate|intros ws f []].
Qed.

Lemma frames_on_the_wire_witness :
  wire_ok (frame "join" (JObj [(lit "roomId", JStr ABCDEF);
                               (lit "userName", JStr al)])).
Proof.
  apply (frames_on_the_wire plain_join in_room
           ltac:(vm_compute; reflexivity) 0).
  left. reflexivity.
Defined.

(** ** The join frame comes first *)

Lemma frames_on_snoc ws l ws' f :
  frames_on ws (l ++ [(ws', f)])
  = if ws' =? ws then frames_on ws l ++ [f] else frames_on ws l.
Proof.
  unfold frames_on. rewrite List.filter_app, List.map_app. simpl.
  destruct (ws' =? ws); simpl; [reflexivity|apply app_nil_r].
Qed.

Lemma join_first_closure w w' fs :
  cl_roomCode w' = cl_roomCode w -> cl_name w' = cl_name w ->
  readyState w' <> CONNECTING -> (fs = [] -> readyState w' <> OPEN) ->
  join_first w fs -> join_first w' fs.
Proof.
  intros Hc Hn Hr Ho [[-> _]|(rest & -> & _ & Hf)].
  - left. split; [reflexivity|now apply Ho].
  - right. exists rest. unfold joinMessage. rewrite Hc, Hn. now repeat split.
Qed.

(** The two facts the frames of a session keep: no frame is recorded for a
    socket that does not exist yet, and every socket's frames fit its
    life. *)
Lemma transport_step_join_first s s' :
  transport_step s s' ->
  (forall ws, length (sockets s) <= ws -> frames_on ws (sent s) = []) /\
  (forall ws w, sockets s !! ws = Some w ->
     join_first w (frames_on ws (sent s))) ->
  (forall ws, length (sockets s') <= ws -> frames_on ws (sent s') = []) /\
  (forall ws w, sockets s' !! ws = Some w ->
     join_first w (frames_on ws (sent s'))).
Proof.
  intros Hts [Hout Hin].
  destruct Hts as [Hk Hs|w0 Hr0 _ Hk Hs|ws0 w0 E0 Hr0 Hk Hs|ws0 w0 E0 Hr0 Hk Hs
                  |ws0 w0 E0 Hr0 _ Hk Hs|ws0 w0 E0 Hr0 Hk Hs];
    rewrite Hk, Hs; clear Hk Hs.
  - now split.
  - split.
    + intros ws Hl. rewrite length_app in Hl. simpl in Hl. apply Hout. lia.
    + intros ws w E. apply lookup_app_Some in E as [E|[Hl E]].
      * now apply Hin.
      * destruct (ws - length (sockets s)); simpl in E; [|discriminate].
        injection E as <-. left. split; [now apply Hout|]. now rewrite Hr0.
  - split.
    + intros ws Hl. rewrite length_insert in Hl. now apply Hout.
    + intros ws w E.
      apply list_lookup_insert_Some in E as [(-> & <- & _)|(_ & E)].
      * apply join_first_closure with w0; try easy. now apply Hin.
      * now apply Hin.
  - assert (ws0 < length (sockets s)) as Hlt by (now apply lookup_lt_Some with w0).
    split.
    + intros ws Hl. rewrite length_insert in Hl. rewrite frames_on_snoc.
      destruct (ws0 =? ws) eqn:Eq; [apply Nat.eqb_eq in Eq; lia|].
      now apply Hout.
    + intros ws w E. rewrite frames_on_snoc.
      apply list_lookup_insert_Some in E as [(-> & <- & _)|(Hne & E)].
      * rewrite Nat.eqb_refl.
        destruct (Hin ws w0 E0) as [[-> _]|(rest & _ & Hc & _)];
          [|contradiction].
        right. exists []. now repeat split.
      * apply Nat.eqb_neq in Hne. rewrite Hne. now apply Hin.
  - split.
    + intros ws Hl. rewrite frames_on_snoc.
      destruct (ws0 =? ws) eqn:Eq; [|now apply Hout].
      apply Nat.eqb_eq in Eq. subst ws0.
      apply lookup_lt_Some in E0. lia.
    + intros ws w E. rewrite frames_on_snoc.
      destruct (ws0 =? ws) eqn:Eq; [|now apply Hin].
      apply Nat.eqb_eq in Eq. subst ws0. rewrite E in E0. injection E0 as <-.
      destruct (Hin ws w E) as [[_ Ho]|(rest & -> & Hc & Hf)];
        [contradiction|].
      right. exists (rest ++ [chatMessage s]). repeat split; try easy.
      apply Forall_app. split; [exact Hf|]. now constructor.
  - assert (ws0 < length (sockets s)) as Hlt by (now apply lookup_lt_Some with w0).
    split.
    + intros ws Hl. rewrite length_insert in Hl. rewrite frames_on_snoc.
      destruct (ws0 =? ws) eqn:Eq; [apply Nat.eqb_eq in Eq; lia|].
      now apply Hout.
    + intros ws w E. rewrite frames_on_snoc.
      apply list_lookup_insert_Some in E as [(-> & <- & _)|(Hne & E)].
      * rewrite Nat.eqb_refl.
        destruct (Hin ws w0 E0) as [[_ Ho]|(rest & -> & Hc & Hf)];
          [contradiction|].
        right. exists (rest ++ [leaveMessage s]). repeat split; try easy.
        apply Forall_app. split; [exact Hf|]. now constructor.
      * apply Nat.eqb_neq in Hne. rewrite Hne. now apply Hin.
Qed.

Lemma becomes_connected s e s' :
  step s e = Some s' -> connectionStatus s' = connected ->
  connectionStatus s = connected \/
  exists ws w, sockets s !! ws = Some w /\
    sent s' = sent s ++ [(ws, joinMessage w)].
Proof.
  intros Hs Hc. destruct e; simpl in Hs;
    try (injection Hs as <-; now left).
  - injection Hs as <-. left. now apply join_never_connects.
  - injection Hs as <-. left. now rewrite send_keeps_status in Hc.
  - injection Hs as <-. left. now apply leave_never_connects.
  - unfold ready in Hs. destruct (sockets s !! ws) as [w|] eqn:E;
      [|injection Hs as <-; now left].
    simpl in Hs. destruct (readyState w) eqn:Er;
      try (injection Hs as <-; now left).
    injection Hs as <-. right. exists ws, w. split; [exact E|].
    unfold ws_onopen, ws_send, become. simpl.
    now rewrite list_lookup_alter_eq, E.
  - destruct (ready ws s) as [[]|]; try (injection Hs as <-; now left).
    apply onmessage_keeps_status in Hs. left. congruence.
  - destruct (ready ws s) as [[]|]; injection Hs as <-;
      first [now left | discriminate].
  - destruct (ready ws s) as [[]|]; injection Hs as <-;
      first [now left | discriminate].
Qed.

(** X16: in every state a session can reach, the frames handed to a
    transport are none as long as it has not been open, and otherwise start
    with that transport's own join frame, which stays the only join frame
    on it: no chat_message or leave frame ever precedes the join.  And
    whenever the status is connected, some transport has carried its join
    frame. *)
Theorem join_frame_comes_first es s :
  run initial es = Some s ->
  (forall ws w, sockets s !! ws = Some w ->
     join_first w (frames_on ws (sent s))) /\
  (connectionStatus s = connected ->
   exists ws w rest, sockets s !! ws = Some w /\
     frames_on ws (sent s) = joinMessage w :: rest).
Proof.
  intros Hr.
  enough (((forall ws, length (sockets s) <= ws ->
              frames_on ws (sent s) = []) /\
           (forall ws w, sockets s !! ws = Some w ->
              join_first w (frames_on ws (sent s)))) /\
          (connectionStatus s = connected ->
           exists ws, frames_on ws (sent s) <> [])) as [[Hout Hin] Hc].
  { split; [exact Hin|]. intros H. destruct (Hc H) as [ws Hne].
    destruct (sockets s !! ws) as [w|] eqn:E.
    - destruct (Hin ws w E) as [[E0 _]|(rest & E0 & _)]; [contradiction|].
      now exists ws, w, rest.
    - exfalso. apply Hne, Hout. now apply lookup_ge_None. }
  refine (run_invariant
            (fun s =>
               ((forall ws, length (sockets s) <= ws ->
                   frames_on ws (sent s) = []) /\
                (forall ws w, sockets s !! ws = Some w ->
                   join_first w (frames_on ws (sent s)))) /\
               (connectionStatus s = connected ->
                exists ws, frames_on ws (sent s) <> []))
            _ es initial s _ Hr).
  - clear. intros s e s' [Hq Hc] Hs. split.
    + apply (transport_step_join_first s s');
        [exact (step_transport s e s' Hs)|exact Hq].
    + intros Hc'.
      destruct (becomes_connected s e s' Hs Hc') as [H|(ws & w & _ & E)].
      * destruct (Hc H) as [ws Hne]. exists ws.
        apply step_transport, transport_step_sent in Hs
          as [->|(ws0 & w0 & f & _ & -> & _)]; [exact Hne|].
        rewrite frames_on_snoc. destruct (ws0 =? ws); [|exact Hne].
        now destruct (frames_on ws (sent s)).
      * exists ws. rewrite E, frames_on_snoc, Nat.eqb_refl.
        now destruct (frames_on ws (sent s)).
  - split; [split|discriminate].
    + reflexivity.
    + intros ws w E. discriminate.
Qed.

Lemma join_frame_comes_first_witness :
  join_first {| readyState := CONNECTING; cl_roomCode := ABCDEF;
                cl_name := al |}
    (frames_on 1 (sent first_of_two_open)) /\
  join_first {| readyState := OPEN; cl_roomCode := ABCDEF; cl_name := al |}
    (frames_on 0 (sent first_of_two_open)).
Proof.
  pose proof (proj1 (join_frame_comes_first
                       [NameInput al; RoomCodeInput ABCDEF; Join; Join;
                        WsOpen 0]
                       first_of_two_open ltac:(vm_compute; reflexivity)))
    as H.
  split; [apply (H 1)|apply (H 0)]; reflexivity.
Defined.

(** ** Which transport the client can close *)

Lemma send_keeps_sockets s :
  sockets (sendMessage s) = sockets s /\ wsRef (sendMessage s) = wsRef s.
Proof.
  unfold sendMessage.
  destruct (truthy_str _), (wsRef s) as [ws|] eqn:Ew, (connectionStatus s);
    try (now split).
  destruct (ws_send ws (chatMessage s) s) as [s1|] eqn:Es; [|now split].
  apply ws_send_sent in Es as [->| ->]; now split.
Qed.

Lemma leave_sockets s :
  leaveRoom s = s \/
  wsRef (leaveRoom s) = None /\
  (sockets (leaveRoom s) = sockets s \/
   exists ws w, wsRef s = Some ws /\ sockets s !! ws = Some w /\
     sockets (leaveRoom s) = <[ws := set_readyState CLOSING w]> (sockets s)).
Proof.
  unfold leaveRoom. destruct (wsRef s) as [ws|]; [|now left].
  unfold ws_send, ws_close. destruct (sockets s !! ws) as [w|] eqn:E.
  - destruct (readyState w) eqn:Er; [now left| | |].
    + right. simpl. rewrite E, Er. split; [reflexivity|].
      right. now exists ws, w.
    + right. rewrite E, Er. split; [reflexivity|now left].
    + right. rewrite E, Er. split; [reflexivity|now left].
  - right. rewrite E. split; [reflexivity|now left].
Qed.

Lemma step_wsRef s e s' :
  step s e = Some s' ->
  (wsRef s' = wsRef s \/ wsRef s' = None) /\
    length (sockets s') = length (sockets s) \/
  wsRef s' = Some (length (sockets s)) /\
    length (sockets s') = S (length (sockets s)).
Proof.
  intros Hs. destruct e; simpl in Hs;
    try (injection Hs as <-; left; split; [now left|reflexivity]).
  - injection Hs as <-.
    destruct (join_transport s) as [(H1 & _ & H3)|(_ & H1 & _ & H3)].
    + left. rewrite H1. split; [now left|reflexivity].
    + right. rewrite H1, length_app. simpl. split; [exact H3|lia].
  - injection Hs as <-. left. destruct (send_keeps_sockets s) as [-> ->].
    split; [now left|reflexivity].
  - injection Hs as <-. left.
    destruct (leave_sockets s) as [->|[Hw [->|(ws & w & _ & _ & ->)]]].
    + split; [now left|reflexivity].
    + split; [now right|reflexivity].
    + split; [now right|apply length_insert].
  - left. destruct (ready ws s) as [[]|];
      try (injection Hs as <-; split; [now left|reflexivity]).
    injection Hs as <-. unfold ws_onopen, ws_send, become. simpl.
    destruct (alter (set_readyState OPEN) ws (sockets s) !! ws) as [w|];
      [destruct (readyState w)|]; (split; [now left|apply length_alter]).
  - left. destruct (ready ws s) as [[]|];
      try (injection Hs as <-; split; [now left|reflexivity]).
    apply onmessage_keeps_transport in Hs as (-> & _ & ->).
    split; [now left|reflexivity].
  - left. destruct (ready ws s) as [[]|]; injection Hs as <-;
      (split; [now left|]); first [reflexivity | apply length_alter].
  - left. destruct (ready ws s) as [[]|]; injection Hs as <-;
      (split; [now left|]); first [reflexivity | apply length_alter].
Qed.

(** X17: in every state a session can reach, [wsRef] is empty or holds the
    transport constructed last.  No event that comes from the user, and not
    the cleanup on unmount either, changes the ready state of an earlier
    transport: once a further join has replaced it, the client never closes
    it. *)
Theorem only_the_newest_transport es s :
  run initial es = Some s ->
  (forall ws, wsRef s = Some ws -> S ws = length (sockets s)) /\
  (forall e s' ws, user_event e = true -> step s e = Some s' ->
     S ws < length (sockets s) -> ready ws s' = ready ws s) /\
  (forall ws, S ws < length (sockets s) -> ready ws (unmount s) = ready ws s).
Proof.
  intros Hr.
  assert (forall ws, wsRef s = Some ws -> S ws = length (sockets s)) as Hn.
  { refine (run_invariant
              (fun s => forall ws, wsRef s = Some ws ->
                          S ws = length (sockets s))
              _ es initial s _ Hr).
    - clear. intros s e s' Hi Hs ws Hw.
      destruct (step_wsRef s e s' Hs) as [[[E|E] Hl]|[E Hl]].
      + rewrite Hl. apply Hi. congruence.
      + congruence.
      + rewrite Hl. congruence.
    - discriminate. }
  split; [exact Hn|]. split.
  - intros e s' ws Hu Hs Hlt. unfold ready.
    destruct e; try discriminate; simpl in Hs; injection Hs as <-;
      try reflexivity.
    + destruct (join_transport s) as [(-> & _)|(_ & -> & _)]; [reflexivity|].
      now rewrite lookup_app_l by lia.
    + now rewrite (proj1 (send_keeps_sockets s)).
    + destruct (leave_sockets s) as [->|[_ [->|(ws0 & w & Hw & _ & ->)]]];
        try reflexivity.
      apply Hn in Hw. rewrite list_lookup_insert_ne by lia. reflexivity.
  - intros ws Hlt. unfold ready.
    destruct (wsRef s) as [ws0|] eqn:Hw;
      [|now rewrite (unmount_idle s) by now left].
    pose proof (Hn ws0 eq_refl) as Hlast.
    destruct (sockets s !! ws0) as [w|] eqn:E;
      [|now rewrite (unmount_idle s) by (right; left; eauto)].
    destruct (le_lt_dec 2 (rank (readyState w))) as [Hk|Hk].
    + now rewrite (unmount_idle s) by (right; right; eauto).
    + rewrite (unmount_live s ws0 w Hw E Hk). simpl.
      rewrite list_lookup_insert_ne by lia. reflexivity.
Qed.

Lemma only_the_newest_transport_witness :
  wsRef first_of_two_open = Some 1 /\
  ready 0 (leaveRoom first_of_two_open) = Some OPEN /\
  ready 0 (unmount first_of_two_open) = Some OPEN.
Proof.
  destruct (only_the_newest_transport
              [NameInput al; RoomCodeInput ABCDEF; Join; Join; WsOpen 0]
              first_of_two_open ltac:(vm_compute; reflexivity))
    as (_ & Hu & Hm).
  split; [reflexivity|]. split.
  - rewrite (Hu Leave (leaveRoom first_of_two_open) 0 eq_refl eq_refl);
      [reflexivity|vm_compute; lia].
  - rewrite (Hm 0); [reflexivity|vm_compute; lia].
Defined.

(** ** Edits between the join and the opening of the transport *)

Lemma form_input_keeps s e :
  form_input e = true ->
  exists s', step s e = Some s' /\ sockets s' = sockets s /\
    sent s' = sent s.
Proof.
  destruct e; try discriminate; intros _; eexists;
    (split; [reflexivity|]); now split.
Qed.

Lemma form_inputs_keep es s :
  forallb form_input es = true ->
  exists s', run s es = Some s' /\ sockets s' = sockets s /\
    sent s' = sent s.
Proof.
  revert s. induction es as [|e es IH]; intros s H; simpl in *.
  - now exists s.
  - apply andb_true_iff in H as [He Hes].
    destruct (form_input_keeps s e He) as (s1 & -> & Hk & Hs).
    destruct (IH s1 Hes) as (s' & Hr & Hk' & Hs').
    exists s'. split; [exact Hr|]. split; congruence.
Qed.

(** X18: the join frame is fixed at the click.  After a join that passes
    validation, whatever is typed into the form (name, room code, message,
    a newly generated code) before the transport opens, the frame sent at
    the opening carries the room code and the trimmed name of the click;
    the status becomes connected, and the chat_message frames built from
    then on carry the name and the code as edited. *)
Theorem edits_do_not_reach_the_join_frame s es :
  trim (name s) <> [] -> trim (roomCode s) <> [] -> length (roomCode s) = 6 ->
  forallb form_input es = true ->
  let ws := length (sockets s) in
  exists s1 s2,
    run (connectToWebSocket s) es = Some s1 /\
    step s1 (WsOpen ws) = Some s2 /\
    sent s2 = sent s ++
      [(ws, frame "join" (JObj [(lit "roomId", JStr (roomCode s));
                                (lit "userName", JStr (trim (name s)))]))] /\
    connectionStatus s2 = connected /\
    chatMessage s2 =
      frame "chat_message"
        (JObj [(lit "roomId", JStr (roomCode s1));
               (lit "sender", JStr (name s1));
               (lit "text", JStr (trim (currentMessage s1)))]).
Proof.
  intros Hn Hc Hl Hes ws.
  destruct (form_inputs_keep es (connectToWebSocket s) Hes)
    as (s1 & Hr & Hk & Hs).
  rewrite (validation_passes s Hn Hc Hl) in Hk, Hs. simpl in Hk, Hs.
  fold ws in Hk.
  assert (sockets s1 !! ws =
          Some {| readyState := CONNECTING; cl_roomCode := roomCode s;
                  cl_name := name s |}) as E.
  { rewrite Hk. now apply list_lookup_middle. }
  exists s1. eexists. split; [exact Hr|].
  split; [now apply (open_fires s1 ws _ E)|].
  simpl. rewrite Hs. now repeat split.
Qed.

Lemma edits_do_not_reach_the_join_frame_witness :
  exists s1 s2,
    run (connectToWebSocket (filled al ABCDEF))
        [RoomCodeInput (lit "ZZZZZZ"); NameInput bob] = Some s1 /\
    step s1 (WsOpen 0) = Some s2 /\
    sent s2 = [(0, frame "join" (JObj [(lit "roomId", JStr ABCDEF);
                                       (lit "userName", JStr al)]))] /\
    roomCode s2 = lit "ZZZZZZ" /\ name s2 = bob.
Proof.
  destruct (edits_do_not_reach_the_join_frame (filled al ABCDEF)
              [RoomCodeInput (lit "ZZZZZZ"); NameInput bob]
              ltac:(discriminate) ltac:(discriminate) eq_refl eq_refl)
    as (s1 & s2 & Hr & Hs & Hj & _).
  exists s1, s2. split; [exact Hr|]. split; [exact Hs|]. split; [exact Hj|].
  vm_compute in Hr. injection Hr as <-.
  vm_compute in Hs. injection Hs as <-. split; reflexivity.
Defined.
